(** * OpenColorIO binding layer of Blender ([intern/opencolorio/ocio_impl.cc])

    A shallow embedding of the functions of [OCIOImpl] that carry logic of
    their own (default display and view resolution, invertibility, the
    XYZ-to-RGB matrix, built-in colour space classification, per-pixel
    application, display processor assembly), and the properties the
    specification states about them.

    Conventions of the embedding:
    - a C [float] is an IEEE-754 binary32 value ([spec_float] at precision 24,
      maximal exponent 128); a [double] that only ever holds a converted
      [float] is kept as that [float], the conversion being exact;
    - a [const char *] is a [string]; it is read up to its first NUL
      character, as the C library does; [None] stands for [NULL];
    - a [std::string] is a [string] that may hold NUL characters;
    - function-local [static] variables are fields of an explicit [Statics]
      record threaded through the calls;
    - the OpenColorIO library is opaque: a configuration, a colour space and
      a processor are records holding the answers of the library's methods;
    - a call that throws an OpenColorIO [Exception] returns [Throws];
    - the text written to [std::cerr] by [OCIO_reportError] is not modelled. *)

From Stdlib Require Import ZArith SpecFloat Ascii String.
From stdpp Require Import base option list strings gmap.

(** ** IEEE-754 binary32 *)

Module F32.
Local Open Scope Z_scope.

Definition prec : Z := 24.
Definition emax : Z := 128.

Definition float : Type := spec_float.

(** The value whose object representation is the 32-bit pattern [b]. *)
Definition of_bits (b : Z) : float :=
  let s := Z.testbit b 31 in
  let e := Z.land (Z.shiftr b 23) 255 in
  let m := Z.land b 0x7fffff in
  if e =? 0 then
    if m =? 0 then S754_zero s else S754_finite s (Z.to_pos m) (-149)
  else if e =? 255 then
    if m =? 0 then S754_infinity s else S754_nan
  else S754_finite s (Z.to_pos (m + 0x800000)) (e - 150).

(** The 32-bit pattern of a value.  [spec_float] keeps neither the sign nor
    the payload of a NaN, so the pattern read from a NaN is the argument
    [nan_bits]. *)
Definition to_bits (nan_bits : Z) (x : float) : Z :=
  let sign (s : bool) := if s then 0x80000000 else 0 in
  match x with
  | S754_zero s => sign s
  | S754_infinity s => sign s + 0x7f800000
  | S754_nan => nan_bits
  | S754_finite s m e =>
      if Z.pos m <? 0x800000 then sign s + Z.pos m
      else sign s + Z.shiftl (e + 150) 23 + (Z.pos m - 0x800000)
  end.

(** Two's complement reading of a 32-bit pattern, and wrap-around of an
    [int] result. *)
Definition int_of_bits (b : Z) : Z :=
  let u := b mod 2 ^ 32 in if u <? 2 ^ 31 then u else u - 2 ^ 32.

(** [*(int * )&x] *)
Definition as_int (nan_bits : Z) (x : float) : Z :=
  int_of_bits (to_bits nan_bits x).

(** Conversion of an [int] to [float]. *)
Definition of_int (i : Z) : float := binary_normalize prec emax i 0 false.

Definition zero : float := S754_zero false.
Definition one : float := of_int 1.

Definition add : float -> float -> float := SFadd prec emax.
Definition sub : float -> float -> float := SFsub prec emax.
Definition mul : float -> float -> float := SFmul prec emax.
Definition div : float -> float -> float := SFdiv prec emax.
Definition abs : float -> float := SFabs.
Definition eqb : float -> float -> bool := SFeqb.
Definition ltb : float -> float -> bool := SFltb.
(** [a != b], true as soon as one side is a NaN. *)
Definition neqb (a b : float) : bool := negb (eqb a b).
(** [a > b] *)
Definition gtb (a b : float) : bool := ltb b a.

(** [(float)b] for a [bool] or an [int] holding 0 or 1. *)
Definition of_bool (b : bool) : float := if b then one else zero.
(** [!x] for a [float] [x]. *)
Definition is_false (x : float) : bool := eqb x zero.
End F32.

Abbreviation float := F32.float.

(** ** Pixels and processors *)

(** [float pixel[3]] and [float pixel[4]]. *)
Record RGB := mkRGB { rgb0 : float; rgb1 : float; rgb2 : float }.
Record RGBA := mkRGBA { px0 : float; px1 : float; px2 : float; px3 : float }.

(** [OCIO::CPUProcessor]: its in-place [applyRGB] and [applyRGBA] are
    functions from the old content of the pixel to the new one. *)
Record CPUProcessor := mkCPUProcessor {
  applyRGB : RGB -> RGB;
  applyRGBA : RGBA -> RGBA
}.

(** [OCIO::Processor]; [getDefaultCPUProcessor] may return a null pointer. *)
Record Processor := mkProcessor {
  getDefaultCPUProcessor : option CPUProcessor
}.

Definition processorApplyRGB (processor : CPUProcessor) (pixel : RGB) : RGB :=
  applyRGB processor pixel.

Definition processorApplyRGBA (processor : CPUProcessor) (pixel : RGBA) : RGBA :=
  applyRGBA processor pixel.

Definition processorApplyRGBA_predivide (processor : CPUProcessor) (pixel : RGBA)
  : RGBA :=
  if F32.eqb (px3 pixel) F32.one || F32.eqb (px3 pixel) F32.zero then
    applyRGBA processor pixel
  else
    let alpha := px3 pixel in
    let inv_alpha := F32.div F32.one alpha in
    let pixel := mkRGBA (F32.mul (px0 pixel) inv_alpha)
                        (F32.mul (px1 pixel) inv_alpha)
                        (F32.mul (px2 pixel) inv_alpha)
                        (px3 pixel) in
    let pixel := applyRGBA processor pixel in
    mkRGBA (F32.mul (px0 pixel) alpha)
           (F32.mul (px1 pixel) alpha)
           (F32.mul (px2 pixel) alpha)
           (px3 pixel).

(** The processor that leaves every pixel as it is. *)
Definition identity_cpu : CPUProcessor :=
  {| applyRGB := fun p => p; applyRGBA := fun p => p |}.

(** ** Strings *)

Definition NUL : ascii := "000"%char.

(** The characters read through a [const char *]: those before the first
    NUL.  It is [std::string::c_str] seen by a C reader, and the conversion
    of a [const char *] to a [std::string]. *)
Fixpoint c_str (s : string) : string :=
  match s with
  | EmptyString => EmptyString
  | String c s' => if Ascii.eqb c NUL then EmptyString else String c (c_str s')
  end.

(** [s[i]]; the terminator is read at the end of the string. *)
Definition char_at (s : string) (i : nat) : ascii :=
  default NUL (String.get i s).

(** [s[i] = c] on a [std::string]. *)
Fixpoint string_set (s : string) (i : nat) (c : ascii) : string :=
  match s, i with
  | EmptyString, _ => EmptyString
  | String _ s', O => String c s'
  | String x s', S i' => String x (string_set s' i' c)
  end.

(** [strchr(s, ch) - s] for a character [ch] other than NUL; [None] is the
    null pointer. *)
Fixpoint strchr (s : string) (ch : ascii) : option nat :=
  match s with
  | EmptyString => None
  | String c s' =>
      if Ascii.eqb c NUL then None
      else if Ascii.eqb c ch then Some O
      else S <$> strchr s' ch
  end.

(** [strlen] *)
Definition strlen (s : string) : nat := String.length (c_str s).

(** [strcmp(a, b) == 0] *)
Definition strcmp_eq (a b : string) : bool := String.eqb (c_str a) (c_str b).

(** [std::string::empty] *)
Definition empty (s : string) : bool :=
  match s with EmptyString => true | String _ _ => false end.

(** [tolower] in the C locale. *)
Definition tolower (c : ascii) : ascii :=
  let n := nat_of_ascii c in
  if (65 <=? n)%nat && (n <=? 90)%nat then ascii_of_nat (n + 32) else c.

Fixpoint string_map (f : ascii -> ascii) (s : string) : string :=
  match s with
  | EmptyString => EmptyString
  | String c s' => String (f c) (string_map f s')
  end.

Definition stringToLower (str : string) : string := string_map tolower str.

Definition is_separator (ch : ascii) : bool :=
  negb (negb (Ascii.eqb ch ",") && negb (Ascii.eqb ch ":")).

(** The variables of the loop of [splitStringEnvStyle]. *)
Record SplitState := mkSplitState {
  tokens : list string;
  token_start : nat;
  token_length : nat
}.

(** One iteration of the loop, at index [i]. *)
Definition split_step (str : string) (st : SplitState) (i : nat) : SplitState :=
  let ch := char_at str i in
  if negb (Ascii.eqb ch ",") && negb (Ascii.eqb ch ":") then
    mkSplitState (tokens st) (token_start st) (S (token_length st))
  else
    mkSplitState
      (if (0 <? token_length st)%nat
       then tokens st ++ [String.substring (token_start st) (token_length st) str]
       else tokens st)
      (i + 1) 0.

(** The statement after the loop: the token which might be at the end of
    the string is appended. *)
Definition split_finish (str : string) (st : SplitState) : list string :=
  if negb (token_length st =? 0)%nat
  then tokens st ++ [String.substring (token_start st) (token_length st) str]
  else tokens st.

(** [splitStringEnvStyle(&tokens, str)]: the tokens it leaves in [*tokens].
    The loop runs over the indices [0 .. len - 1]. *)
Definition splitStringEnvStyle (str : string) : list string :=
  let len := String.length str in
  split_finish str (foldl (split_step str) (mkSplitState [] 0 0) (seq 0 len)).

(** ** The OpenColorIO objects *)

(** The outcome of a library call that may throw an [Exception]. *)
Inductive result (A : Type) : Type :=
| Returns (a : A)
| Throws (what : string).
Arguments Returns {A} a.
Arguments Throws {A} what.

(** The transforms [createDisplayProcessor] creates, with the fields it
    sets on each. *)
Inductive Transform : Type :=
| ColorSpaceTransform (src dst : string)
| MatrixTransform (matrix : list float)
| LookTransform (src dst looks : string)
| DisplayViewTransform (src : string) (looksBypass : bool) (view display : string)
| ExponentTransform (value : list float).

(** [OCIO::GroupTransform]: the transforms appended so far, in order. *)
Definition GroupTransform : Type := list Transform.

Inductive ColorSpaceDirection : Type :=
| COLORSPACE_DIR_TO_REFERENCE
| COLORSPACE_DIR_FROM_REFERENCE.

(** [OCIO::ColorSpace] *)
Record ColorSpace := mkColorSpace {
  getName : string;
  getFamily : string;
  isData : bool;
  getTransform : ColorSpaceDirection -> option Transform
}.

(** [OCIO::Config], with the methods the binding calls. *)
Record Config := mkConfig {
  getActiveDisplays : string;
  getDefaultDisplay : result string;
  getActiveViews : string;
  getNumViews : string -> Z;
  getView : string -> Z -> string;
  getDefaultView : string -> result string;
  hasRole : string -> bool;
  getProcessor : string -> string -> result (option Processor);
  getProcessor_transform : GroupTransform -> result (option Processor);
  (** [LookTransform::GetLooksResultColorSpace(config, context, looks)] *)
  GetLooksResultColorSpace : string -> string
}.

Definition ROLE_SCENE_LINEAR : string := "scene_linear".

(** The environment of the process, as [getenv] reads it. *)
Definition Env : Type := string -> option string.

(** The [static] variables: [active_display] of [configGetDefaultDisplay] and
    [default_display_views] of [configGetDefaultView].  The mutexes guarding
    them make each call atomic; calls are modelled one after the other. *)
Record Statics := mkStatics {
  active_display : string;
  default_display_views : gmap string string
}.

(** Their values when the process starts. *)
Definition statics_init : Statics := mkStatics "" ∅.

(** ** Default display and default view *)

(** What is returned after a [try] block around a call that returns a
    string: the string, or [NULL] once the exception has been reported. *)
Definition try_string (r : result string) : option string :=
  match r with
  | Returns s => Some s
  | Throws _ => None
  end.

Definition configGetDefaultDisplay (getenv : Env) (config : Config) (st : Statics)
  : option string * Statics :=
  let library := (try_string (getDefaultDisplay config), st) in
  match getenv "OCIO_ACTIVE_DISPLAYS" with
  | None =>
      let active_displays := getActiveDisplays config in
      if negb (Ascii.eqb (char_at active_displays 0) NUL) then
        match strchr active_displays "," with
        | None => (Some (c_str active_displays), st)
        | Some separator_pos =>
            let st :=
              if empty (active_display st) then
                mkStatics (string_set (c_str active_displays) separator_pos NUL)
                          (default_display_views st)
              else st in
            (Some (c_str (active_display st)), st)
        end
      else library
  | Some _ => library
  end.

(** The set [display_views] built by the first loop of
    [configGetDefaultView]. *)
Definition display_views_of (config : Config) (display : string) : gset string :=
  let num_display_views := getNumViews config display in
  foldl (fun display_views view_index =>
           {[ stringToLower (c_str (getView config display view_index)) ]}
           ∪ display_views)
        ∅ (seqZ 0 num_display_views).

(** The view at which the second loop of [configGetDefaultView] returns, if
    it does. *)
Definition first_supported_view (display_views : gset string)
    (active_views : list string) : option string :=
  List.find (fun view => bool_decide (stringToLower view ∈ display_views))
            active_views.

Definition configGetDefaultView (getenv : Env) (config : Config) (display : string)
    (st : Statics) : option string * Statics :=
  let library := (try_string (getDefaultView config display), st) in
  match getenv "OCIO_ACTIVE_VIEWS" with
  | None =>
      let active_views_encoded := getActiveViews config in
      if negb (Ascii.eqb (char_at active_views_encoded 0) NUL) then
        let display_lower := stringToLower (c_str display) in
        match default_display_views st !! display_lower with
        | Some view => (Some (c_str view), st)
        | None =>
            let active_views := splitStringEnvStyle (c_str active_views_encoded) in
            let display_views := display_views_of config display in
            match first_supported_view display_views active_views with
            | Some view =>
                (Some (c_str view),
                 mkStatics (active_display st)
                           (<[display_lower := view]> (default_display_views st)))
            | None => library
            end
        end
      else library
  | Some _ => library
  end.

(** ** Invertibility *)

Definition colorSpaceIsInvertible (cs : ColorSpace) : bool :=
  let family := getFamily cs in
  if strcmp_eq family "rrt" || strcmp_eq family "display" then false
  else if isData cs then true
  else
    match getTransform cs COLORSPACE_DIR_TO_REFERENCE with
    | Some _ => true
    | None => true
    end.

Definition colorSpaceIsData (cs : ColorSpace) : bool := isData cs.

(** ** XYZ to scene linear RGB *)

(** [float m[3][3]], by rows [m[0]], [m[1]], [m[2]]. *)
Record M3 := mkM3 { m3_0 : RGB; m3_1 : RGB; m3_2 : RGB }.

Definition f32_0 : float := F32.zero.
Definition f32_1 : float := F32.one.

(** [to_scene_linear_matrix]: [Some m] when it returns [true] having written
    [m] to [to_scene_linear], [None] when it returns [false], the matrix of
    the caller untouched. *)
Definition to_scene_linear_matrix (config : Config) (colorspace : string)
  : option M3 :=
  match getProcessor config colorspace ROLE_SCENE_LINEAR with
  | Throws _ => None
  | Returns None => None
  | Returns (Some processor) =>
      match getDefaultCPUProcessor processor with
      | None => None
      | Some device_processor =>
          Some (mkM3 (applyRGB device_processor (mkRGB f32_1 f32_0 f32_0))
                     (applyRGB device_processor (mkRGB f32_0 f32_1 f32_0))
                     (applyRGB device_processor (mkRGB f32_0 f32_0 f32_1)))
      end
  end.

(** The literals of [xyz_to_aces], rounded to binary32. *)
Definition xyz_to_aces : M3 :=
  mkM3 (mkRGB (F32.of_bits 0x3f866035) (F32.of_bits 0xbefde700) f32_0)
       (mkRGB f32_0 (F32.of_bits 0x3fafc8b9) f32_0)
       (mkRGB (F32.of_bits 0xb8cc7098) (F32.of_bits 0x3dc93212)
              (F32.of_bits 0x3f7dc2b1)).

Section XYZtoRGB.
(** The constant of [ocio_impl.h] and the product of [BLI_math_matrix.h],
    both declared outside this file: [mul_m3_m3m3 a b] is the matrix that
    [mul_m3_m3m3(R, a, b)] writes to [R]. *)
Variable OCIO_XYZ_TO_LINEAR_SRGB : M3.
Variable mul_m3_m3m3 : M3 -> M3 -> M3.

(** [configGetXYZtoRGB]: the matrix left in [xyz_to_rgb]. *)
Definition configGetXYZtoRGB (config : Config) : M3 :=
  let xyz_to_rgb := OCIO_XYZ_TO_LINEAR_SRGB in
  if negb (hasRole config ROLE_SCENE_LINEAR) then xyz_to_rgb
  else if hasRole config "aces_interchange" then
    match to_scene_linear_matrix config "aces_interchange" with
    | Some aces_to_rgb => mul_m3_m3m3 aces_to_rgb xyz_to_aces
    | None => xyz_to_rgb
    end
  else if hasRole config "XYZ" then
    match to_scene_linear_matrix config "XXYZ" with
    | Some m => m
    | None => xyz_to_rgb
    end
  else xyz_to_rgb.
End XYZtoRGB.

(** ** Built-in colour space classification *)

(** The out-parameters [is_scene_linear] and [is_srgb]. *)
Record Builtin := mkBuiltin { is_scene_linear : bool; is_srgb : bool }.

(** [1e-5f] and [1e-6f] *)
Definition f32_1e_5 : float := F32.of_bits 0x3727c5ac.
Definition f32_1e_6 : float := F32.of_bits 0x358637bd.

Section Classification.
(** The bit pattern read from a NaN (see [F32.to_bits]) and the transfer
    function of [BLI_math_color.h], declared outside this file. *)
Variable nan_bits : Z.
Variable srgb_to_linearrgb : float -> float.

(** [compare_floats]; its [bool] results are converted to the [float] it
    is declared to return.  [int] arithmetic wraps around. *)
Definition compare_floats (a b abs_diff : float) (ulp_diff : Z) : float :=
  if F32.ltb (F32.abs (F32.sub a b)) abs_diff then F32.of_bool true
  else if negb (eqb (F32.ltb a F32.zero) (F32.ltb b F32.zero)) then
    F32.of_bool false
  else
    let d := F32.int_of_bits (F32.as_int nan_bits a - F32.as_int nan_bits b) in
    F32.of_bool (F32.int_of_bits (Z.abs d) <? ulp_diff)%Z.

(** [i / 255.0f] *)
Definition intensity (i : Z) : float := F32.div (F32.of_int i) (F32.of_int 255).

(** The four pixels handed to [applyRGB] at intensity [v], in call order. *)
Definition probes (v : float) : list RGB :=
  [mkRGB v f32_0 f32_0; mkRGB f32_0 v f32_0; mkRGB f32_0 f32_0 v; mkRGB v v v].

(** The body of the loop of [colorSpaceIsBuiltin] at index [i], from the
    flags on entry to the flags after it and whether it left by [break]. *)
Definition builtin_sample (device_processor : CPUProcessor) (i : Z)
    (fl : Builtin) : Builtin * bool :=
  let v := intensity i in
  let cR := applyRGB device_processor (mkRGB v f32_0 f32_0) in
  let cG := applyRGB device_processor (mkRGB f32_0 v f32_0) in
  let cB := applyRGB device_processor (mkRGB f32_0 f32_0 v) in
  let cW := applyRGB device_processor (mkRGB v v v) in
  if F32.gtb (F32.abs (rgb1 cR)) f32_1e_5 || F32.gtb (F32.abs (rgb2 cR)) f32_1e_5
     || F32.gtb (F32.abs (rgb0 cG)) f32_1e_5
     || F32.gtb (F32.abs (rgb2 cG)) f32_1e_5
     || F32.gtb (F32.abs (rgb0 cB)) f32_1e_5
     || F32.gtb (F32.abs (rgb1 cB)) f32_1e_5
  then (mkBuiltin false false, true)
  else if F32.is_false (compare_floats (rgb0 cR) (rgb0 cW) f32_1e_6 64)
          || F32.is_false (compare_floats (rgb1 cG) (rgb1 cW) f32_1e_6 64)
          || F32.is_false (compare_floats (rgb2 cB) (rgb2 cW) f32_1e_6 64)
  then (mkBuiltin false false, true)
  else if F32.is_false (compare_floats (rgb0 cW) (rgb1 cW) f32_1e_6 64)
          || F32.is_false (compare_floats (rgb1 cW) (rgb2 cW) f32_1e_6 64)
  then (mkBuiltin false false, true)
  else
    let out_v := F32.mul (F32.add (F32.add (rgb0 cW) (rgb1 cW)) (rgb2 cW))
                         (F32.div F32.one (F32.of_int 3)) in
    let fl :=
      if F32.is_false (compare_floats v out_v f32_1e_6 64)
      then mkBuiltin false (is_srgb fl) else fl in
    let fl :=
      if F32.is_false (compare_floats (srgb_to_linearrgb v) out_v f32_1e_6 64)
      then mkBuiltin (is_scene_linear fl) false else fl in
    (fl, false).

(** The loop [for (int i = ...; i < ...; i++)] with [n] iterations left to
    run from index [i]: the flags when it is left, and the pixels handed
    to [applyRGB] so far, [calls] being those of the earlier iterations. *)
Fixpoint builtin_loop (device_processor : CPUProcessor) (n : nat) (i : Z)
    (fl : Builtin) (calls : list RGB) : Builtin * list RGB :=
  match n with
  | O => (fl, calls)
  | S n' =>
      let '(fl', stop) := builtin_sample device_processor i fl in
      let calls' := calls ++ probes (intensity i) in
      if stop then (fl', calls')
      else builtin_loop device_processor n' (i + 1) fl' calls'
  end.

(** [colorSpaceIsBuiltin]: the flags it leaves in its out-parameters and
    the pixels it handed to [applyRGB], in order.  [None] is the null
    pointer dereference the code runs into when the library hands back a
    null processor without throwing. *)
Definition colorSpaceIsBuiltin (config : Config) (cs : ColorSpace)
  : option (Builtin * list RGB) :=
  match getProcessor config (getName cs) "scene_linear" with
  | Throws _ => Some (mkBuiltin false false, [])
  | Returns None => None
  | Returns (Some processor) =>
      match getDefaultCPUProcessor processor with
      | None => None
      | Some device_processor =>
          Some (builtin_loop device_processor 256 0 (mkBuiltin true true) [])
      end
  end.
End Classification.

(** ** Display processor *)

Definition not_null {A : Type} (p : option A) : bool :=
  match p with Some _ => true | None => false end.

(** The group [createDisplayProcessor] has assembled when it asks the
    configuration for a processor.  [look] is a pointer that may be null;
    [None] is returned when [strlen] is handed the null pointer. *)
Definition display_group (config : Config) (input view display : string)
    (look : option string) (scale exponent : float) : option GroupTransform :=
  let group : GroupTransform := [] in
  (* Exposure. *)
  let '(group, input) :=
    if F32.neqb scale F32.one then
      (group ++ [ColorSpaceTransform input ROLE_SCENE_LINEAR;
                 MatrixTransform [scale; f32_0; f32_0; f32_0;
                                  f32_0; scale; f32_0; f32_0;
                                  f32_0; f32_0; scale; f32_0;
                                  f32_0; f32_0; f32_0; f32_1]],
       ROLE_SCENE_LINEAR)
    else (group, input) in
  (* Add look transform. *)
  match look with
  | None => None
  | Some look_chars =>
      let '(group, input) :=
        if (0 <? strlen look_chars)%nat then
          let look_output := GetLooksResultColorSpace config look_chars in
          (group ++ [LookTransform input look_output look_chars], look_output)
        else (group, input) in
      (* Add view and display transform. *)
      let group :=
        group ++ [DisplayViewTransform input (not_null look) view display] in
      (* Gamma. *)
      let group :=
        if F32.neqb exponent F32.one then
          group ++ [ExponentTransform [exponent; exponent; exponent; f32_1]]
        else group in
      Some group
  end.

(** [createDisplayProcessor]: the processor returned, [Some None] being
    [NULL]. *)
Definition createDisplayProcessor (config : Config) (input view display : string)
    (look : option string) (scale exponent : float) : option (option Processor) :=
  match display_group config input view display look scale exponent with
  | None => None
  | Some group =>
      match getProcessor_transform config group with
      | Returns (Some p) => Some (Some p)
      | Returns None => Some None
      | Throws _ => Some None
      end
  end.

(** The display/view transforms of a group. *)
Definition is_display_view (t : Transform) : bool :=
  match t with DisplayViewTransform _ _ _ _ => true | _ => false end.

Definition display_view_transforms (group : GroupTransform) : list Transform :=
  List.filter is_display_view group.

(** ** Well-formed strings and sample data *)

(** A string that is a well-formed C string: reading it up to the first NUL
    gives all of it. *)
Definition is_cstring (s : string) : Prop := c_str s = s.

(** A processor with a visible effect: it doubles every channel but alpha. *)
Definition doubling_cpu : CPUProcessor :=
  {| applyRGB := fun p =>
       mkRGB (F32.add (rgb0 p) (rgb0 p)) (F32.add (rgb1 p) (rgb1 p))
             (F32.add (rgb2 p) (rgb2 p));
     applyRGBA := fun p =>
       mkRGBA (F32.add (px0 p) (px0 p)) (F32.add (px1 p) (px1 p))
              (F32.add (px2 p) (px2 p)) (px3 p) |}.

(** The pixel (0.2, 0.4, 0.6, 0.5) and the same colour at alpha 1 and 0. *)
Definition px_half : RGBA :=
  mkRGBA (F32.of_bits 0x3e4ccccd) (F32.of_bits 0x3ecccccd)
         (F32.of_bits 0x3f19999a) (F32.of_bits 0x3f000000).
Definition px_opaque : RGBA :=
  mkRGBA (px0 px_half) (px1 px_half) (px2 px_half) F32.one.
Definition px_clear : RGBA :=
  mkRGBA (px0 px_half) (px1 px_half) (px2 px_half) (S754_zero true).

(** Synthetic colour spaces, one per case of [colorSpaceIsInvertible]. *)
Definition cs_of (name family : string) (data : bool) (tr : option Transform)
  : ColorSpace :=
  mkColorSpace name family data (fun _ => tr).

Definition cs_rrt : ColorSpace :=
  cs_of "RRT" "rrt" true (Some (ExponentTransform [])).
Definition cs_display : ColorSpace :=
  cs_of "sRGB" "display" false (Some (ExponentTransform [])).
Definition cs_data : ColorSpace := cs_of "Non-Color" "" true None.
Definition cs_linear : ColorSpace := cs_of "Linear" "linear" false None.

(** A processor that rotates the channels, and a configuration in the
    legacy layout: roles [scene_linear] and [XYZ], no [aces_interchange];
    a processor exists from [XYZ] and from [Linear] to scene linear, and
    asking for any other source throws. *)
Definition rotating_cpu : CPUProcessor :=
  {| applyRGB := fun p => mkRGB (rgb1 p) (rgb2 p) (rgb0 p);
     applyRGBA := fun p => mkRGBA (px1 p) (px2 p) (px0 p) (px3 p) |}.

Definition legacy_config : Config :=
  {| getActiveDisplays := "display_b,display_a";
     getDefaultDisplay := Returns "display_a";
     getActiveViews := "Filmic,Standard";
     getNumViews := fun _ => 2%Z;
     getView := fun _ i => if (i =? 0)%Z then "Standard" else "filmic";
     getDefaultView := fun _ => Returns "Standard";
     hasRole := fun role =>
       String.eqb role "scene_linear" || String.eqb role "XYZ";
     getProcessor := fun src dst =>
       if String.eqb src "XYZ" && String.eqb dst "scene_linear" then
         Returns (Some (mkProcessor (Some rotating_cpu)))
       else if String.eqb src "Linear" && String.eqb dst "scene_linear" then
         Returns (Some (mkProcessor (Some identity_cpu)))
       else Throws "Color space could not be found.";
     getProcessor_transform := fun _ => Returns (Some (mkProcessor None));
     GetLooksResultColorSpace := fun _ => "Linear" |}.

(** The rows [rotating_cpu] makes of the three basis vectors. *)
Definition m3_rotated : M3 :=
  mkM3 (mkRGB f32_0 f32_0 f32_1) (mkRGB f32_1 f32_0 f32_0)
       (mkRGB f32_0 f32_1 f32_0).

(** The flags after the loop of [colorSpaceIsBuiltin] was cut off after at
    most [k] iterations. *)
Definition flags_after (nan_bits : Z) (srgb_to_linearrgb : float -> float)
    (device_processor : CPUProcessor) (k : nat) : Builtin :=
  fst (builtin_loop nan_bits srgb_to_linearrgb device_processor k 0
                    (mkBuiltin true true) []).

(** A flag of [after] is set only where it is set in [before]. *)
Definition only_cleared (before after : Builtin) : Prop :=
  (is_scene_linear after = true -> is_scene_linear before = true)
  /\ (is_srgb after = true -> is_srgb before = true).

(** The pixels handed to [applyRGB] by [m] iterations in a row, the first
    at index [i]. *)
Fixpoint calls_of (i : Z) (m : nat) : list RGB :=
  match m with
  | O => []
  | S m' => probes (intensity i) ++ calls_of (i + 1) m'
  end.

(** *** Splitting, as a specification

    [delimited_by sep s] are the substrings of [s] that its separators (the
    characters [sep] holds of) delimit, one more than there are separators,
    empty ones included; [rejoin] puts such pieces back around the
    separators. *)
Fixpoint delimited_by (sep : ascii -> bool) (s : string) : list string :=
  match s with
  | EmptyString => [EmptyString]
  | String c s' =>
      if sep c then EmptyString :: delimited_by sep s'
      else match delimited_by sep s' with
           | t :: ts => String c t :: ts
           | [] => [String c EmptyString]
           end
  end.

Fixpoint separators_of (sep : ascii -> bool) (s : string) : list ascii :=
  match s with
  | EmptyString => []
  | String c s' =>
      if sep c then c :: separators_of sep s' else separators_of sep s'
  end.

Fixpoint rejoin (pieces : list string) (seps : list ascii) : string :=
  match pieces, seps with
  | [], _ => EmptyString
  | p :: _, [] => p
  | p :: ps, c :: cs => p +:+ String c (rejoin ps cs)
  end.

(** The substrings delimited by ',' and ':', and the non-empty ones. *)
Definition delimited (s : string) : list string := delimited_by is_separator s.

Definition nonempty_delimited (s : string) : list string :=
  List.filter (fun t => negb (empty t)) (delimited s).

(** The entries of a comma-separated list such as the active displays. *)
Definition entries (s : string) : list string :=
  delimited_by (fun c => Ascii.eqb c ",") s.

(** [c] occurs in [s]. *)
Fixpoint occurs (c : ascii) (s : string) : Prop :=
  match s with
  | EmptyString => False
  | String x s' => x = c \/ occurs c s'
  end.

(** [cur] put in front of the first of the pieces. *)
Definition attach (cur : string) (pieces : list string) : list string :=
  match pieces with
  | t :: ts => (cur +:+ t) :: ts
  | [] => [cur]
  end.

(** The environment in which no variable is set. *)
Definition no_env : Env := fun _ => None.

(** A second configuration, with other displays and views. *)
Definition other_config : Config :=
  {| getActiveDisplays := "sRGB,XYZ";
     getDefaultDisplay := Returns "XYZ";
     getActiveViews := "Standard:Raw";
     getNumViews := fun _ => 2%Z;
     getView := fun _ i => if (i =? 0)%Z then "Raw" else "Standard";
     getDefaultView := fun _ => Returns "Raw";
     hasRole := fun _ => false;
     getProcessor := fun _ _ => Throws "Color space could not be found.";
     getProcessor_transform := fun _ => Throws "Invalid transform.";
     GetLooksResultColorSpace := fun _ => "" |}.

(** The calls that read or write the [static] variables. *)
Inductive Call : Type :=
| CallDefaultDisplay (getenv : Env) (config : Config)
| CallDefaultView (getenv : Env) (config : Config) (display : string).

Definition run_call (c : Call) (st : Statics) : option string * Statics :=
  match c with
  | CallDefaultDisplay getenv config => configGetDefaultDisplay getenv config st
  | CallDefaultView getenv config display =>
      configGetDefaultView getenv config display st
  end.

(** The [static] variables after a sequence of calls. *)
Definition run_calls (cs : list Call) (st : Statics) : Statics :=
  foldl (fun st c => snd (run_call c st)) st cs.

(** [a] and [b] are the same name up to the case of their letters. *)
Definition same_name (a b : string) : Prop := stringToLower a = stringToLower b.

(** [view] is one of the views the configuration lists for [display], up to
    case. *)
Definition is_view_of (config : Config) (display view : string) : Prop :=
  exists i : Z,
    (0 <= i < getNumViews config display)%Z
    /\ same_name view (c_str (getView config display i)).

(** [view] is the first of [views] that is a view of [display]. *)
Definition first_view_of (config : Config) (display : string)
    (views : list string) (view : string) : Prop :=
  exists before after,
    views = before ++ view :: after
    /\ is_view_of config display view
    /\ forall u, In u before -> ~ is_view_of config display u.

(** ** Further notions used to state properties *)

(** The strings of [l] with [c] between them, as a separated list is
    written. *)
Fixpoint join_with (c : ascii) (l : list string) : string :=
  match l with
  | [] => EmptyString
  | [t] => t
  | t :: ts => t +:+ String c (join_with c ts)
  end.

(** The strings of [l] one after the other. *)
Fixpoint concat_strings (l : list string) : string :=
  match l with
  | [] => EmptyString
  | t :: ts => t +:+ concat_strings ts
  end.

(** [s] without the characters [drop] holds of. *)
Fixpoint string_remove (drop : ascii -> bool) (s : string) : string :=
  match s with
  | EmptyString => EmptyString
  | String c s' =>
      if drop c then string_remove drop s' else String c (string_remove drop s')
  end.

(** A token: a non-empty string without ',' and ':'. *)
Definition is_token (t : string) : Prop :=
  t <> EmptyString /\ forall c, occurs c t -> is_separator c = false.

(** The flags the body of the loop of [colorSpaceIsBuiltin] leaves at index
    [i] when it is entered with both flags set: what sample [i] alone says
    about the colour space. *)
Definition sample_verdict (nan_bits : Z) (srgb_to_linearrgb : float -> float)
    (device_processor : CPUProcessor) (i : Z) : Builtin :=
  fst (builtin_sample nan_bits srgb_to_linearrgb device_processor i
                      (mkBuiltin true true)).

(** The [n] indices from [i] on. *)
Fixpoint indices (i : Z) (n : nat) : list Z :=
  match n with
  | O => []
  | S n' => i :: indices (i + 1) n'
  end.

(** The matrix [createDisplayProcessor] hands to [setMatrix] for a scale. *)
Definition scale_matrix (scale : float) : list float :=
  [scale; f32_0; f32_0; f32_0;
   f32_0; scale; f32_0; f32_0;
   f32_0; f32_0; scale; f32_0;
   f32_0; f32_0; f32_0; f32_1].

(** A group is connected from the colour space [current] when every
    transform that names a source names the space the pixels are in when it
    is reached: a colour space or look transform moves them to its
    destination, a display/view transform to the display ([None]), a matrix
    or exponent leaves them where they are. *)
Fixpoint connected (current : option string) (group : GroupTransform) : bool :=
  match group with
  | [] => true
  | ColorSpaceTransform src dst :: g =>
      bool_decide (current = Some src) && connected (Some dst) g
  | LookTransform src dst _ :: g =>
      bool_decide (current = Some src) && connected (Some dst) g
  | DisplayViewTransform src _ _ _ :: g =>
      bool_decide (current = Some src) && connected None g
  | MatrixTransform _ :: g => connected current g
  | ExponentTransform _ :: g => connected current g
  end.

(** ** Packed images *)

(** [OCIO::PackedImageDesc] as [createOCIO_PackedImageDesc] makes it, always
    of bit depth F32: the floats its data pointer gives access to, and the
    numbers it was created with. *)
Record PackedImageDesc := mkPackedImageDesc {
  getData : list float;
  getWidth : Z;
  getHeight : Z;
  getNumChannels : Z;
  getChanStrideBytes : Z;
  getXStrideBytes : Z;
  getYStrideBytes : Z
}.

Definition createOCIO_PackedImageDesc (data : list float)
    (width height numChannels chanStrideBytes xStrideBytes yStrideBytes : Z)
  : PackedImageDesc :=
  mkPackedImageDesc data width height numChannels chanStrideBytes xStrideBytes
                    yStrideBytes.

Definition INT_MAX : Z := 2 ^ 31 - 1.

(** The conversion of a [long] to [int], which keeps the low 32 bits. *)
Definition int_of_long (n : Z) : Z := F32.int_of_bits n.

(** [4 * (y * width + x)], an [int]; [None] when it overflows. *)
Definition pixel_offset (width : Z) (y x : nat) : option nat :=
  let off := (4 * (Z.of_nat y * width + Z.of_nat x))%Z in
  if (off <=? INT_MAX)%Z then Some (Z.to_nat off) else None.

(** The four floats at [pixels + off]; [None] outside of the buffer. *)
Definition load_pixel (pixels : list float) (off : nat) : option RGBA :=
  match drop off pixels with
  | p0 :: p1 :: p2 :: p3 :: _ => Some (mkRGBA p0 p1 p2 p3)
  | _ => None
  end.

(** The buffer once the four floats at [pixels + off] are those of
    [pixel]. *)
Definition store_pixel (pixels : list float) (off : nat) (pixel : RGBA)
  : list float :=
  take off pixels ++ [px0 pixel; px1 pixel; px2 pixel; px3 pixel]
  ++ drop (off + 4) pixels.

(** The body of the inner loop of [processorApply_predivide]. *)
Definition predivide_at (processor : CPUProcessor) (width : Z)
    (pixels : list float) (y x : nat) : option (list float) :=
  off ← pixel_offset width y x;
  pixel ← load_pixel pixels off;
  Some (store_pixel pixels off (processorApplyRGBA_predivide processor pixel)).

Section ImageApply.
(** [CPUProcessor::apply(const ImageDesc &)] of the library: the content of
    the buffer when it is back, by return or by exception. *)
Variable cpu_apply : CPUProcessor -> PackedImageDesc -> list float.

(** [processorApply]: the buffer afterwards. *)
Definition processorApply (processor : CPUProcessor) (img : PackedImageDesc)
  : list float :=
  cpu_apply processor img.

(** [processorApply_predivide]: the buffer afterwards; [None] when an index
    overflows or a pixel lies outside of the buffer. *)
Definition processorApply_predivide (processor : CPUProcessor)
    (img : PackedImageDesc) : option (list float) :=
  let channels := getNumChannels img in
  if (channels =? 4)%Z then
    let pixels := getData img in
    let width := int_of_long (getWidth img) in
    let height := int_of_long (getHeight img) in
    foldl (fun pixels y =>
             foldl (fun pixels x =>
                      pixels ← pixels; predivide_at processor width pixels y x)
                   pixels (seq 0 (Z.to_nat width)))
          (Some pixels) (seq 0 (Z.to_nat height))
  else Some (cpu_apply processor img).
End ImageApply.

(** The floats of a sequence of RGBA pixels, packed. *)
Definition packed (pixels : list RGBA) : list float :=
  flat_map (fun p => [px0 p; px1 p; px2 p; px3 p]) pixels.

(** *** The predivide, as the specification words it

    The colour channels are divided by alpha, each by a division of its
    own, the processor is applied to the four channels, and the first three
    channels of its result are multiplied by the alpha the pixel came
    with. *)
Definition predivide_by_division (processor : CPUProcessor) (pixel : RGBA)
  : RGBA :=
  if F32.eqb (px3 pixel) F32.one || F32.eqb (px3 pixel) F32.zero then
    applyRGBA processor pixel
  else
    let a := px3 pixel in
    let out := applyRGBA processor
                 (mkRGBA (F32.div (px0 pixel) a) (F32.div (px1 pixel) a)
                         (F32.div (px2 pixel) a) a) in
    mkRGBA (F32.mul (px0 out) a) (F32.mul (px1 out) a) (F32.mul (px2 out) a)
           (px3 out).

(** The pixel (0.2, 0.4, 0.6, 0.3). *)
Definition px_third : RGBA :=
  mkRGBA (F32.of_bits 0x3e4ccccd) (F32.of_bits 0x3ecccccd)
         (F32.of_bits 0x3f19999a) (F32.of_bits 0x3e99999a).

(** * Properties *)

(** ** Sanity checks of the embedding *)

Example f32_one_bits : F32.of_bits 0x3f800000 = F32.one.
Proof. reflexivity. Qed.

Example f32_bits_roundtrip :
  F32.to_bits 0x7fc00000 (F32.of_bits 0x3727c5ac) = 0x3727c5ac%Z.
Proof. reflexivity. Qed.

Example splitStringEnvStyle_ex :
  splitStringEnvStyle ",Filmic::Standard,Raw:" = ["Filmic"; "Standard"; "Raw"].
Proof. reflexivity. Qed.

Example stringToLower_ex : stringToLower "sRGB / Filmic[1]" = "srgb / filmic[1]".
Proof. reflexivity. Qed.


(** ** Per-pixel application *)

(** At alpha 0.5 the colour (0.2, 0.4, 0.6) is handed to the processor as
    (0.4, 0.8, 1.2), and what comes back, (0.8, 1.6, 2.4), is halved. *)
Example predivide_half :
  processorApplyRGBA_predivide doubling_cpu px_half
  = mkRGBA (F32.of_bits 0x3ecccccd) (F32.of_bits 0x3f4ccccd)
           (F32.of_bits 0x3f99999a) (F32.of_bits 0x3f000000).
Proof. vm_compute. reflexivity. Qed.

(** C5, as stated, fails in binary32: at the pixel (0.2, 0.4, 0.6, 0.3),
    whose alpha is neither 0 nor 1, and with the processor that leaves every
    pixel as it is, the code returns the red channel 13421774 * 2^-26, where
    dividing by alpha and multiplying by alpha again gives 13421773 * 2^-26:
    the code does not divide, it multiplies by the rounded reciprocal. *)
Lemma processorApplyRGBA_predivide_not_division :
  F32.eqb (px3 px_third) F32.one = false
  /\ F32.eqb (px3 px_third) F32.zero = false
  /\ px0 (processorApplyRGBA_predivide identity_cpu px_third)
     = S754_finite false 13421774 (-26)
  /\ px0 (predivide_by_division identity_cpu px_third)
     = S754_finite false 13421773 (-26)
  /\ processorApplyRGBA_predivide identity_cpu px_third
     <> predivide_by_division identity_cpu px_third.
Proof. vm_compute. repeat split; discriminate. Qed.

(** C5, amended.  For a pixel whose alpha compares equal to 1 or to 0
    (either zero), [processorApplyRGBA_predivide] is [processorApplyRGBA].
    For every other alpha, the three colour channels are multiplied by the
    binary32 reciprocal [inv_alpha = 1.0f / alpha], the processor is applied
    to the four channels, and the first three channels of its result are
    multiplied by the alpha the pixel came with. *)
Theorem processorApplyRGBA_predivide_spec (processor : CPUProcessor) (pixel : RGBA) :
  (F32.eqb (px3 pixel) F32.one = true \/ F32.eqb (px3 pixel) F32.zero = true ->
   processorApplyRGBA_predivide processor pixel
   = processorApplyRGBA processor pixel)
  /\
  (F32.eqb (px3 pixel) F32.one = false -> F32.eqb (px3 pixel) F32.zero = false ->
   let a := px3 pixel in
   let inv_alpha := F32.div F32.one a in
   let out :=
     processorApplyRGBA processor
       (mkRGBA (F32.mul (px0 pixel) inv_alpha) (F32.mul (px1 pixel) inv_alpha)
               (F32.mul (px2 pixel) inv_alpha) a) in
   processorApplyRGBA_predivide processor pixel
   = mkRGBA (F32.mul (px0 out) a) (F32.mul (px1 out) a) (F32.mul (px2 out) a)
            (px3 out)).
Proof.
  unfold processorApplyRGBA_predivide, processorApplyRGBA. split.
  - intros [H | H]; rewrite H; [reflexivity | ].
    rewrite orb_true_r. reflexivity.
  - intros H1 H0. rewrite H1, H0. reflexivity.
Qed.

Lemma processorApplyRGBA_predivide_spec_witness :
  processorApplyRGBA_predivide doubling_cpu px_opaque
  = processorApplyRGBA doubling_cpu px_opaque
  /\ processorApplyRGBA_predivide doubling_cpu px_clear
     = processorApplyRGBA doubling_cpu px_clear
  /\ processorApplyRGBA_predivide doubling_cpu px_half
     = mkRGBA (F32.of_bits 0x3ecccccd) (F32.of_bits 0x3f4ccccd)
              (F32.of_bits 0x3f99999a) (F32.of_bits 0x3f000000).
Proof.
  split; [ | split ].
  - apply (proj1 (processorApplyRGBA_predivide_spec doubling_cpu px_opaque)).
    left. reflexivity.
  - apply (proj1 (processorApplyRGBA_predivide_spec doubling_cpu px_clear)).
    right. reflexivity.
  - rewrite (proj2 (processorApplyRGBA_predivide_spec doubling_cpu px_half));
      reflexivity.
Defined.

(** ** Invertibility *)

Lemma strcmp_eq_cstring (a b : string) :
  is_cstring a -> is_cstring b -> strcmp_eq a b = true <-> a = b.
Proof.
  unfold is_cstring, strcmp_eq. intros -> ->. apply String.eqb_eq.
Qed.

(** C8. [colorSpaceIsInvertible] returns false for a colour space whose
    family is exactly "rrt" or exactly "display"; for every other colour
    space it returns true: when it is a data space, and when it is not,
    with or without a transform to the reference space. *)
Theorem colorSpaceIsInvertible_spec (cs : ColorSpace) :
  is_cstring (getFamily cs) ->
  (getFamily cs = "rrt" \/ getFamily cs = "display" ->
   colorSpaceIsInvertible cs = false)
  /\ (getFamily cs <> "rrt" -> getFamily cs <> "display" ->
      isData cs = true -> colorSpaceIsInvertible cs = true)
  /\ (getFamily cs <> "rrt" -> getFamily cs <> "display" ->
      colorSpaceIsInvertible cs = true).
Proof.
  intros Hc. unfold colorSpaceIsInvertible.
  assert (Hrrt := strcmp_eq_cstring (getFamily cs) "rrt" Hc eq_refl).
  assert (Hdis := strcmp_eq_cstring (getFamily cs) "display" Hc eq_refl).
  destruct (strcmp_eq (getFamily cs) "rrt") eqn:E1;
    destruct (strcmp_eq (getFamily cs) "display") eqn:E2; simpl.
  all: repeat split; try reflexivity.
  all: try (intros; exfalso; intuition congruence).
  all: intros; destruct (isData cs); try reflexivity;
    destruct (getTransform cs COLORSPACE_DIR_TO_REFERENCE); reflexivity.
Qed.

Lemma colorSpaceIsInvertible_spec_witness :
  colorSpaceIsInvertible cs_rrt = false
  /\ colorSpaceIsInvertible cs_display = false
  /\ colorSpaceIsInvertible cs_data = true
  /\ colorSpaceIsInvertible cs_linear = true.
Proof.
  split; [ | split; [ | split ] ].
  - apply (proj1 (colorSpaceIsInvertible_spec cs_rrt eq_refl)).
    left. reflexivity.
  - apply (proj1 (colorSpaceIsInvertible_spec cs_display eq_refl)).
    right. reflexivity.
  - apply (proj1 (proj2 (colorSpaceIsInvertible_spec cs_data eq_refl)));
      [discriminate | discriminate | reflexivity].
  - apply (proj2 (proj2 (colorSpaceIsInvertible_spec cs_linear eq_refl)));
      discriminate.
Defined.

(** ** XYZ to scene linear RGB *)

(** With a scene linear role, no "aces_interchange" role and an "XYZ" role,
    the matrix is the one of the name "XXYZ" when that name has a processor,
    and the default otherwise. *)
Lemma configGetXYZtoRGB_legacy_branch (D : M3) (mul : M3 -> M3 -> M3)
    (config : Config) :
  hasRole config ROLE_SCENE_LINEAR = true ->
  hasRole config "aces_interchange" = false ->
  hasRole config "XYZ" = true ->
  configGetXYZtoRGB D mul config
  = default D (to_scene_linear_matrix config "XXYZ").
Proof.
  intros H1 H2 H3. unfold configGetXYZtoRGB. rewrite H1, H2, H3. simpl.
  destruct (to_scene_linear_matrix config "XXYZ"); reflexivity.
Qed.

(** C2, on the code.  [legacy_config] has the scene linear role, no
    "aces_interchange" role and the "XYZ" role, whose conversion to scene
    linear maps the basis vectors to the rows of [m3_rotated]; yet
    [configGetXYZtoRGB] returns the default matrix it was given, whatever that
    is: it asks for a processor from "XXYZ", which throws. *)
Theorem configGetXYZtoRGB_legacy_config (D : M3) (mul : M3 -> M3 -> M3) :
  hasRole legacy_config ROLE_SCENE_LINEAR = true
  /\ hasRole legacy_config "aces_interchange" = false
  /\ hasRole legacy_config "XYZ" = true
  /\ to_scene_linear_matrix legacy_config "XYZ" = Some m3_rotated
  /\ configGetXYZtoRGB D mul legacy_config = D.
Proof. repeat split. Qed.

(** ** Display processor *)

(** Whenever [look] is not null, the group holds one display/view transform
    and its looks bypass flag is set. *)
Lemma display_group_bypass (config : Config) (input view display look : string)
    (scale exponent : float) :
  exists group src,
    display_group config input view display (Some look) scale exponent
    = Some group
    /\ display_view_transforms group
       = [DisplayViewTransform src true view display].
Proof.
  unfold display_group.
  destruct (F32.neqb scale F32.one), (0 <? strlen look)%nat,
    (F32.neqb exponent F32.one);
    eexists; eexists; (split; [reflexivity | reflexivity]).
Qed.

(** C1, on the code.  With the empty look, scale 1 and exponent 1, the group
    is a single display/view transform, from the input space to the view and
    display given, and its looks bypass flag is [true]. *)
Theorem display_group_empty_look (config : Config) (input view display : string) :
  display_group config input view display (Some "") F32.one F32.one
  = Some [DisplayViewTransform input true view display].
Proof. reflexivity. Qed.

(** ** Built-in colour space classification *)

Section ClassificationFacts.
Variable nan_bits : Z.
Variable srgb_to_linearrgb : float -> float.
Variable device_processor : CPUProcessor.

Local Abbreviation sample :=
  (builtin_sample nan_bits srgb_to_linearrgb device_processor).
Local Abbreviation loop :=
  (builtin_loop nan_bits srgb_to_linearrgb device_processor).

Lemma only_cleared_refl (fl : Builtin) : only_cleared fl fl.
Proof. split; trivial. Qed.

Lemma only_cleared_trans (a b c : Builtin) :
  only_cleared a b -> only_cleared b c -> only_cleared a c.
Proof. unfold only_cleared. intuition. Qed.

(** No path through the body of the loop sets a flag. *)
Lemma builtin_sample_only_cleared (i : Z) (fl : Builtin) :
  only_cleared fl (fst (sample i fl)).
Proof.
  unfold builtin_sample, only_cleared.
  repeat match goal with
         | |- context [if ?c then _ else _] => destruct c
         end; simpl; split; intros; trivial; discriminate.
Qed.

(** The flags the loop ends with do not depend on the calls recorded. *)
Lemma builtin_loop_flags_calls (n : nat) :
  forall i fl calls calls',
    fst (loop n i fl calls) = fst (loop n i fl calls').
Proof.
  induction n as [ | n IH]; intros i fl calls calls'; simpl; [reflexivity | ].
  destruct (sample i fl) as [fl' stop].
  destruct stop; [reflexivity | apply IH].
Qed.

(** From any flags, the loop only clears. *)
Lemma builtin_loop_only_cleared (n : nat) :
  forall i fl calls, only_cleared fl (fst (loop n i fl calls)).
Proof.
  induction n as [ | n IH]; intros i fl calls; simpl.
  - apply only_cleared_refl.
  - pose proof (builtin_sample_only_cleared i fl) as Hs.
    destruct (sample i fl) as [fl' stop]. simpl in Hs.
    destruct stop; [exact Hs | ].
    eapply only_cleared_trans; [exact Hs | apply IH].
Qed.

(** One more iteration allowed only clears. *)
Lemma builtin_loop_one_more (n : nat) :
  forall i fl calls,
    only_cleared (fst (loop n i fl calls)) (fst (loop (S n) i fl calls)).
Proof.
  induction n as [ | n IH]; intros i fl calls.
  - apply (builtin_loop_only_cleared 1).
  - change (loop (S (S n)) i fl calls) with
      (let '(fl', stop) := sample i fl in
       let calls' := calls ++ probes (intensity i) in
       if stop then (fl', calls') else loop (S n) (i + 1)%Z fl' calls').
    change (loop (S n) i fl calls) with
      (let '(fl', stop) := sample i fl in
       let calls' := calls ++ probes (intensity i) in
       if stop then (fl', calls') else loop n (i + 1)%Z fl' calls').
    destruct (sample i fl) as [fl' stop].
    destruct stop; [apply only_cleared_refl | apply IH].
Qed.

(** The loop examines the samples [i], [i + 1], ... of some number [m] of
    iterations, and ends as the loop cut off after [m] iterations does. *)
Lemma builtin_loop_examined (n : nat) :
  forall i fl calls,
    exists m, m <= n
      /\ snd (loop n i fl calls) = calls ++ calls_of i m
      /\ fst (loop n i fl calls) = fst (loop m i fl calls).
Proof.
  induction n as [ | n IH]; intros i fl calls.
  - exists 0. cbn [builtin_loop calls_of]. rewrite app_nil_r. auto.
  - cbn [builtin_loop]. destruct (sample i fl) as [fl' stop] eqn:Es.
    destruct stop.
    + exists 1. cbn [builtin_loop calls_of]. rewrite Es, app_nil_r.
      split; [lia | auto].
    + destruct (IH (i + 1)%Z fl' (calls ++ probes (intensity i)))
        as (m & Hm & Hcalls & Hfl).
      exists (S m). cbn [builtin_loop calls_of].
      rewrite Es, Hcalls, Hfl, app_assoc.
      split; [lia | auto].
Qed.
End ClassificationFacts.

(** C6. In [colorSpaceIsBuiltin] both flags are true when the loop is
    entered; no iteration sets a flag, whatever the flags it starts from, so
    the flags after [k + 1] iterations are set only where they were after
    [k]; and the pair returned is what 256 iterations leave, which is what
    the [m] samples examined before the loop was left have accumulated. *)
Theorem colorSpaceIsBuiltin_flags_only_cleared (nan_bits : Z)
    (srgb_to_linearrgb : float -> float) (device_processor : CPUProcessor) :
  let after := flags_after nan_bits srgb_to_linearrgb device_processor in
  after 0 = mkBuiltin true true
  /\ (forall i fl,
        only_cleared fl (fst (builtin_sample nan_bits srgb_to_linearrgb
                                             device_processor i fl)))
  /\ (forall k, only_cleared (after k) (after (S k)))
  /\ (forall config cs processor,
        getProcessor config (getName cs) "scene_linear"
        = Returns (Some processor) ->
        getDefaultCPUProcessor processor = Some device_processor ->
        exists m calls,
          colorSpaceIsBuiltin nan_bits srgb_to_linearrgb config cs
          = Some (after 256, calls)
          /\ m <= 256 /\ calls = calls_of 0 m /\ after 256 = after m).
Proof.
  intros after. split; [reflexivity | ].
  split; [apply builtin_sample_only_cleared | ].
  split; [intros k; apply builtin_loop_one_more | ].
  intros config cs processor Hp Hd. unfold colorSpaceIsBuiltin.
  rewrite Hp, Hd.
  destruct (builtin_loop_examined nan_bits srgb_to_linearrgb device_processor
              256 0 (mkBuiltin true true) []) as (m & Hm & Hcalls & Hfl).
  rewrite app_nil_l in Hcalls. exists m, (calls_of 0 m).
  split; [ | split; [exact Hm | split; [reflexivity | exact Hfl]]].
  unfold after, flags_after. rewrite <- Hcalls.
  by rewrite <- surjective_pairing.
Qed.

Lemma colorSpaceIsBuiltin_flags_only_cleared_witness :
  exists m calls,
    colorSpaceIsBuiltin 0x7fc00000 (fun v => v) legacy_config cs_linear
    = Some (flags_after 0x7fc00000 (fun v => v) identity_cpu 256, calls)
    /\ m <= 256 /\ calls = calls_of 0 m
    /\ flags_after 0x7fc00000 (fun v => v) identity_cpu 256
       = flags_after 0x7fc00000 (fun v => v) identity_cpu m.
Proof.
  apply (proj2 (proj2 (proj2
           (colorSpaceIsBuiltin_flags_only_cleared 0x7fc00000 (fun v => v)
              identity_cpu)))
           legacy_config cs_linear (mkProcessor (Some identity_cpu)));
    reflexivity.
Defined.

(** C7. When asking the configuration for a processor from the colour space
    to "scene_linear" throws, [colorSpaceIsBuiltin] reports both flags false
    and has handed no pixel to any processor. *)
Theorem colorSpaceIsBuiltin_no_processor (nan_bits : Z)
    (srgb_to_linearrgb : float -> float) (config : Config) (cs : ColorSpace)
    (what : string) :
  getProcessor config (getName cs) "scene_linear" = Throws what ->
  colorSpaceIsBuiltin nan_bits srgb_to_linearrgb config cs
  = Some (mkBuiltin false false, []).
Proof. intros H. unfold colorSpaceIsBuiltin. rewrite H. reflexivity. Qed.

Lemma colorSpaceIsBuiltin_no_processor_witness :
  colorSpaceIsBuiltin 0x7fc00000 (fun v => v) legacy_config cs_data
  = Some (mkBuiltin false false, []).
Proof.
  apply (colorSpaceIsBuiltin_no_processor _ _ legacy_config cs_data
           "Color space could not be found.").
  reflexivity.
Defined.

(** ** Splitting the active views *)

#[local] Arguments String.append !s1 s2 : simpl nomatch.

Lemma string_app_assoc (a b c : string) : (a +:+ b) +:+ c = a +:+ (b +:+ c).
Proof. induction a as [ | x a IH]; simpl; [reflexivity | by rewrite IH]. Qed.

Lemma string_app_nil_r (a : string) : a +:+ "" = a.
Proof. induction a as [ | x a IH]; simpl; [reflexivity | by rewrite IH]. Qed.

Lemma string_length_app (a b : string) :
  String.length (a +:+ b) = String.length a + String.length b.
Proof. induction a as [ | x a IH]; simpl; [reflexivity | by rewrite IH]. Qed.

Lemma char_at_app (a : string) (c : ascii) (b : string) :
  char_at (a +:+ String c b) (String.length a) = c.
Proof. unfold char_at. induction a as [ | x a IH]; simpl; [reflexivity | exact IH]. Qed.

Lemma substring_prefix (b c : string) :
  String.substring 0 (String.length b) (b +:+ c) = b.
Proof.
  induction b as [ | x b IH]; simpl; [by destruct c | by rewrite IH].
Qed.

Lemma substring_app (a b c : string) :
  String.substring (String.length a) (String.length b) (a +:+ b +:+ c) = b.
Proof.
  induction a as [ | x a IH]; simpl; [apply substring_prefix | exact IH].
Qed.

Lemma empty_length (s : string) : empty s = (String.length s =? 0)%nat.
Proof. by destruct s. Qed.

Lemma delimited_by_not_nil (sep : ascii -> bool) (s : string) :
  delimited_by sep s <> [].
Proof.
  induction s as [ | c s IH]; simpl; [done | ].
  destruct (sep c); [done | ]. by destruct (delimited_by sep s).
Qed.

Lemma delimited_not_nil (s : string) : delimited s <> [].
Proof. apply delimited_by_not_nil. Qed.

Lemma is_separator_spec (c : ascii) :
  is_separator c = true <-> c = ","%char \/ c = ":"%char.
Proof.
  unfold is_separator.
  destruct (Ascii.eqb_spec c ","), (Ascii.eqb_spec c ":"); simpl;
    intuition congruence.
Qed.

(** The pieces, put back around the separators of [s], are [s]. *)
Lemma delimited_by_rejoin (sep : ascii -> bool) (s : string) :
  rejoin (delimited_by sep s) (separators_of sep s) = s.
Proof.
  induction s as [ | c s IH]; simpl; [reflexivity | ].
  destruct (sep c); simpl; [by rewrite IH | ].
  pose proof (delimited_by_not_nil sep s) as Hne.
  destruct (delimited_by sep s) as [ | t ts]; [done | ].
  destruct (separators_of sep s) as [ | x xs]; simpl in *; by rewrite IH.
Qed.

(** No piece holds a separator, and a piece holds characters of [s] only. *)
Lemma delimited_by_no_separator (sep : ascii -> bool) (s t : string) (c : ascii) :
  In t (delimited_by sep s) -> occurs c t -> sep c = false /\ occurs c s.
Proof.
  revert t. induction s as [ | x s IH]; simpl; intros t Hin Hoc.
  - destruct Hin as [<- | []]. destruct Hoc.
  - destruct (sep x) eqn:Ex.
    + destruct Hin as [<- | Hin]; [destruct Hoc | ].
      destruct (IH t Hin Hoc). auto.
    + pose proof (delimited_by_not_nil sep s) as Hne.
      destruct (delimited_by sep s) as [ | t0 ts]; [done | ].
      destruct Hin as [<- | Hin].
      * destruct Hoc as [<- | Hoc]; [auto | ].
        destruct (IH t0 (or_introl eq_refl) Hoc). auto.
      * destruct (IH t (or_intror Hin) Hoc). auto.
Qed.

(** The loop of [splitStringEnvStyle], started in the middle of [s]: [pre]
    is behind the current token, [cur] is the current token so far, [suf] is
    still to be read. *)
Lemma split_loop_delimited (suf : string) :
  forall (pre cur : string) (toks : list string) (s : string),
    s = pre +:+ cur +:+ suf ->
    split_finish s
      (foldl (split_step s)
             (mkSplitState toks (String.length pre) (String.length cur))
             (seq (String.length pre + String.length cur) (String.length suf)))
    = toks ++ List.filter (fun t => negb (empty t)) (attach cur (delimited suf)).
Proof.
  induction suf as [ | c suf IH]; intros pre cur toks s Hs.
  - subst s. unfold delimited.
    cbn [String.length seq foldl delimited_by attach List.filter].
    unfold split_finish. cbn [tokens token_start token_length].
    rewrite substring_app, string_app_nil_r, empty_length.
    destruct (String.length cur =? 0)%nat; simpl; [by rewrite app_nil_r | done].
  - cbn [String.length seq foldl].
    assert (Hc : char_at s (String.length pre + String.length cur) = c).
    { subst s. rewrite <- string_length_app, <- string_app_assoc.
      apply char_at_app. }
    unfold split_step at 2. rewrite Hc.
    cbn [tokens token_start token_length].
    unfold delimited. cbn [delimited_by]. fold (delimited suf). unfold is_separator.
    destruct (negb (Ascii.eqb c ",") && negb (Ascii.eqb c ":")) eqn:Esep;
      cbn [negb].
    + (* any character but a separator extends the current token *)
      specialize (IH pre (cur +:+ String c "") toks s).
      replace (String.length pre + String.length (cur +:+ String c ""))
        with (S (String.length pre + String.length cur)) in IH
        by (rewrite !string_length_app; simpl; lia).
      replace (String.length (cur +:+ String c ""))
        with (S (String.length cur)) in IH
        by (rewrite !string_length_app; simpl; lia).
      rewrite IH.
      * pose proof (delimited_not_nil suf) as Hne.
        destruct (delimited suf) as [ | t ts]; [done | ].
        unfold attach. by rewrite string_app_assoc.
      * subst s. rewrite !string_app_assoc. reflexivity.
    + (* a separator closes it *)
      assert (Hsub : String.substring (String.length pre) (String.length cur) s
                     = cur) by (subst s; apply substring_app).
      rewrite Hsub.
      specialize (IH (pre +:+ cur +:+ String c "") ""
                     (if (0 <? String.length cur)%nat then toks ++ [cur] else toks)
                     s).
      replace (String.length (pre +:+ cur +:+ String c "") + String.length "")
        with (S (String.length pre + String.length cur)) in IH
        by (rewrite !string_length_app; simpl; lia).
      replace (String.length (pre +:+ cur +:+ String c ""))
        with (String.length pre + String.length cur + 1) in IH
        by (rewrite !string_length_app; simpl; lia).
      simpl String.length in IH. rewrite IH.
      * unfold attach at 2. rewrite string_app_nil_r. cbn [List.filter].
        pose proof (delimited_not_nil suf) as Hne.
        destruct (delimited suf) as [ | t ts]; [done | ].
        unfold attach. cbn [String.append].
        rewrite empty_length.
        destruct (String.length cur) eqn:El; simpl; [reflexivity | ].
        by rewrite <- app_assoc.
      * subst s. rewrite !string_app_assoc. reflexivity.
Qed.

(** [splitStringEnvStyle] computes the non-empty delimited substrings. *)
Lemma splitStringEnvStyle_delimited (str : string) :
  splitStringEnvStyle str = nonempty_delimited str.
Proof.
  pose proof (split_loop_delimited str "" "" [] str eq_refl) as H.
  cbn [String.length Nat.add app] in H.
  unfold splitStringEnvStyle, nonempty_delimited. rewrite H.
  pose proof (delimited_not_nil str) as Hne.
  by destruct (delimited str).
Qed.

Lemma is_cstring_cons (c : ascii) (s : string) :
  is_cstring (String c s) <-> c <> NUL /\ is_cstring s.
Proof.
  unfold is_cstring. simpl. destruct (Ascii.eqb_spec c NUL) as [-> | Hc].
  - split; [discriminate | intros [[] _]; reflexivity].
  - split; [intros [= H]; auto | intros [_ ->]; reflexivity].
Qed.

Lemma is_cstring_occurs (s : string) : is_cstring s <-> ~ occurs NUL s.
Proof.
  induction s as [ | c s IH]; simpl.
  - split; [tauto | reflexivity].
  - rewrite is_cstring_cons, IH. intuition.
Qed.

Lemma c_str_is_cstring (s : string) : is_cstring (c_str s).
Proof.
  unfold is_cstring. induction s as [ | c s IH]; simpl; [reflexivity | ].
  destruct (Ascii.eqb c NUL) eqn:E; simpl; [reflexivity | ]. by rewrite E, IH.
Qed.

(** A piece of a C string is a C string. *)
Lemma delimited_by_is_cstring (sep : ascii -> bool) (s t : string) :
  is_cstring s -> In t (delimited_by sep s) -> is_cstring t.
Proof.
  rewrite !is_cstring_occurs. intros Hs Hin Hoc.
  apply Hs. eapply delimited_by_no_separator; eauto.
Qed.

Lemma nonempty_delimited_In (s t : string) :
  In t (nonempty_delimited s) <-> In t (delimited s) /\ t <> "".
Proof.
  unfold nonempty_delimited. rewrite filter_In.
  destruct t; simpl; intuition congruence.
Qed.

Lemma first_supported_view_In (dv : gset string) (l : list string) (v : string) :
  first_supported_view dv l = Some v -> In v l.
Proof. intros H. by apply find_some in H as [H _]. Qed.

(** C9. [splitStringEnvStyle] returns the non-empty ones among the substrings
    that ',' and ':' delimit in its argument: these substrings, put back
    around the separators, are the argument; every token is non-empty and
    holds neither ',' nor ':'; and a view that a call of
    [configGetDefaultView] puts into its cache is one of the tokens of the
    active views. *)
Theorem splitStringEnvStyle_spec (str : string) :
  splitStringEnvStyle str = nonempty_delimited str
  /\ rejoin (delimited str) (separators_of is_separator str) = str
  /\ (forall t, In t (splitStringEnvStyle str) ->
        In t (delimited str) /\ t <> ""
        /\ forall c, occurs c t -> c <> ","%char /\ c <> ":"%char)
  /\ (forall getenv config display st view,
        str = c_str (getActiveViews config) ->
        let key := stringToLower (c_str display) in
        default_display_views st !! key = None ->
        default_display_views
          (snd (configGetDefaultView getenv config display st)) !! key
        = Some view ->
        In view (nonempty_delimited str)).
Proof.
  split; [apply splitStringEnvStyle_delimited | ].
  split; [apply delimited_by_rejoin | ].
  split.
  - intros t. rewrite splitStringEnvStyle_delimited, nonempty_delimited_In.
    intros [Hin Hne]. split; [exact Hin | split; [exact Hne | ] ].
    intros c Hoc.
    destruct (delimited_by_no_separator _ _ _ _ Hin Hoc) as [Hsep _].
    pose proof (is_separator_spec c) as Hspec. rewrite Hsep in Hspec.
    split; intros ->; by destruct Hspec as [_ Hspec]; discriminate Hspec; auto.
  - intros getenv config display st view -> key Hmiss.
    unfold configGetDefaultView. fold key.
    destruct (getenv "OCIO_ACTIVE_VIEWS"); simpl; [congruence | ].
    destruct (negb _); simpl; [ | congruence].
    rewrite Hmiss.
    destruct (first_supported_view _ _) as [v | ] eqn:Ef; simpl; [ | congruence].
    rewrite lookup_insert_eq. intros [= <-].
    rewrite <- splitStringEnvStyle_delimited.
    eapply first_supported_view_In, Ef.
Qed.

Lemma splitStringEnvStyle_spec_witness :
  (In "Standard" (delimited ",Filmic::Standard,Raw:") /\ "Standard" <> ""
   /\ forall c, occurs c "Standard" -> c <> ","%char /\ c <> ":"%char)
  /\ In "Filmic" (nonempty_delimited "Filmic,Standard").
Proof.
  split.
  - apply (proj1 (proj2 (proj2
             (splitStringEnvStyle_spec ",Filmic::Standard,Raw:")))).
    vm_compute. auto.
  - apply (proj2 (proj2 (proj2 (splitStringEnvStyle_spec "Filmic,Standard")))
             no_env legacy_config "sRGB" statics_init "Filmic");
      [reflexivity | reflexivity | vm_compute; reflexivity].
Defined.

(** ** Default display *)

(** Where [strchr] finds the first comma of a C string, the string cut
    there is its first entry and there are further entries; where it finds
    none, the string is its only entry. *)
Lemma strchr_entries (s : string) :
  is_cstring s ->
  match strchr s "," with
  | Some pos =>
      exists d0 d1 ds,
        entries s = d0 :: d1 :: ds /\ c_str (string_set s pos NUL) = d0
        /\ empty (string_set s pos NUL) = false
  | None => entries s = [s]
  end.
Proof.
  unfold entries. induction s as [ | c s IH]; intros Hc; simpl; [reflexivity | ].
  apply is_cstring_cons in Hc as [Hnul Hs].
  destruct (Ascii.eqb_spec c NUL) as [ | _]; [done | ].
  destruct (Ascii.eqb_spec c ",") as [-> | Hcomma].
  - pose proof (delimited_by_not_nil (fun c => Ascii.eqb c ",") s) as Hne.
    destruct (delimited_by _ s) as [ | d1 ds]; [done | ].
    exists "", d1, ds. simpl. auto.
  - specialize (IH Hs). destruct (strchr s ",") as [pos | ]; simpl.
    + destruct IH as (d0 & d1 & ds & -> & Hcut & _).
      exists (String c d0), d1, ds. simpl.
      destruct (Ascii.eqb_spec c NUL) as [ | _]; [done | ]. by rewrite Hcut.
    + by rewrite IH.
Qed.

Lemma char_at_0_cstring (s : string) :
  is_cstring s -> s <> "" -> negb (Ascii.eqb (char_at s 0) NUL) = true.
Proof.
  destruct s as [ | c s]; [done | ]. intros [Hc _]%is_cstring_cons _.
  change (char_at (String c s) 0) with c. by destruct (Ascii.eqb_spec c NUL).
Qed.

(** What [configGetDefaultDisplay] does on a non-empty list of active
    displays when the environment does not override it. *)
Lemma configGetDefaultDisplay_workaround (getenv : Env) (config : Config)
    (st : Statics) :
  getenv "OCIO_ACTIVE_DISPLAYS" = None ->
  is_cstring (getActiveDisplays config) ->
  getActiveDisplays config <> "" ->
  forall d0 ds, entries (getActiveDisplays config) = d0 :: ds ->
  match ds with
  | [] => configGetDefaultDisplay getenv config st = (Some d0, st)
  | _ :: _ =>
      if empty (active_display st) then
        exists cached,
          configGetDefaultDisplay getenv config st
          = (Some d0, mkStatics cached (default_display_views st))
          /\ c_str cached = d0 /\ empty cached = false
      else
        configGetDefaultDisplay getenv config st
        = (Some (c_str (active_display st)), st)
  end.
Proof.
  intros Henv Hc Hne d0 ds Hent. unfold configGetDefaultDisplay.
  rewrite Henv, (char_at_0_cstring _ Hc Hne).
  pose proof (strchr_entries _ Hc) as Hs.
  destruct (strchr (getActiveDisplays config) ",") as [pos | ].
  - destruct Hs as (e0 & e1 & es & He & Hcut & Hfull).
    rewrite Hent in He. injection He as -> ->.
    destruct (empty (active_display st)) eqn:Ee; [ | reflexivity].
    rewrite Hc. eexists. split; [ | split; [exact Hcut | exact Hfull] ].
    simpl. by rewrite Hcut.
  - rewrite Hent in Hs. injection Hs as -> ->. by rewrite Hc.
Qed.

(** Once filled, the cache of the default display is left alone by every
    call. *)
Lemma run_call_active_display (c : Call) (st : Statics) :
  empty (active_display st) = false ->
  active_display (snd (run_call c st)) = active_display st.
Proof.
  intros He. destruct c as [getenv config | getenv config display]; simpl.
  - unfold configGetDefaultDisplay.
    destruct (getenv _); [reflexivity | ].
    destruct (negb _); [ | reflexivity].
    destruct (strchr _ _); [ | reflexivity]. by rewrite He.
  - unfold configGetDefaultView.
    destruct (getenv _); [reflexivity | ].
    destruct (negb _); [ | reflexivity].
    destruct (_ !! _); [reflexivity | ].
    by destruct (first_supported_view _ _).
Qed.

Lemma run_calls_active_display (cs : list Call) (st : Statics) :
  empty (active_display st) = false ->
  active_display (run_calls cs st) = active_display st.
Proof.
  revert st. induction cs as [ | c cs IH]; intros st He; [reflexivity | ].
  unfold run_calls. simpl. fold (run_calls cs (snd (run_call c st))).
  pose proof (run_call_active_display c st He) as Hc.
  rewrite IH; [exact Hc | by rewrite Hc].
Qed.

(** C3, as stated, fails on a second configuration: after the default
    display of [legacy_config] (active displays "display_b,display_a") was
    asked for, [other_config], whose active displays are "sRGB,XYZ", is
    answered "display_b" and not its first entry "sRGB". *)
Lemma configGetDefaultDisplay_other_config :
  let st1 := snd (configGetDefaultDisplay no_env legacy_config statics_init) in
  no_env "OCIO_ACTIVE_DISPLAYS" = None
  /\ entries (getActiveDisplays other_config) = ["sRGB"; "XYZ"]
  /\ fst (configGetDefaultDisplay no_env other_config st1) = Some "display_b"
  /\ fst (configGetDefaultDisplay no_env other_config st1) <> Some "sRGB".
Proof. vm_compute. repeat split; discriminate. Qed.

(** C3, amended.  When the environment does not override the active
    displays and the list of the configuration is not empty, with entries
    [d0, d1, ...], [configGetDefaultDisplay] returns [d0] if the list has no
    further entry or if the cache is still empty; with further entries and a
    filled cache it returns the cached name. *)
Theorem configGetDefaultDisplay_first_entry (getenv : Env) (config : Config)
    (st : Statics) (d0 : string) (ds : list string) :
  getenv "OCIO_ACTIVE_DISPLAYS" = None ->
  is_cstring (getActiveDisplays config) ->
  getActiveDisplays config <> "" ->
  entries (getActiveDisplays config) = d0 :: ds ->
  (ds = [] \/ empty (active_display st) = true ->
   fst (configGetDefaultDisplay getenv config st) = Some d0)
  /\ (ds <> [] -> empty (active_display st) = false ->
      fst (configGetDefaultDisplay getenv config st)
      = Some (c_str (active_display st))).
Proof.
  intros Henv Hc Hne Hent.
  pose proof (configGetDefaultDisplay_workaround getenv config st Henv Hc Hne
                d0 ds Hent) as H.
  destruct ds as [ | d1 ds].
  - rewrite H. split; [reflexivity | congruence].
  - destruct (empty (active_display st)).
    + destruct H as (cached & -> & _). split; [reflexivity | discriminate].
    + rewrite H. split; [intros [? | ?]; discriminate | reflexivity].
Qed.

Lemma configGetDefaultDisplay_first_entry_witness :
  fst (configGetDefaultDisplay no_env legacy_config statics_init)
  = Some "display_b"
  /\ fst (configGetDefaultDisplay no_env other_config
            (snd (configGetDefaultDisplay no_env legacy_config statics_init)))
     = Some "display_b".
Proof.
  split.
  - apply (proj1 (configGetDefaultDisplay_first_entry no_env legacy_config
                    statics_init "display_b" ["display_a"]
                    eq_refl eq_refl ltac:(discriminate) eq_refl)).
    right. reflexivity.
  - apply (proj2 (configGetDefaultDisplay_first_entry no_env other_config
                    (snd (configGetDefaultDisplay no_env legacy_config
                            statics_init))
                    "sRGB" ["XYZ"]
                    eq_refl eq_refl ltac:(discriminate) eq_refl));
      [discriminate | reflexivity].
Defined.

(** C10.  The cache of the default display is one value for the process.
    Let a first call, on an empty cache and with no override in the
    environment, resolve a list of several active displays to its first
    entry [d0].  Then, after any further calls, a call for any configuration
    with a list of several active displays returns [d0] too, whatever the
    entries of that list, and leaves the [static] variables as they are. *)
Theorem configGetDefaultDisplay_cache_shared (getenv : Env)
    (configA configB : Config) (st : Statics) (calls : list Call)
    (d0 d1 e0 e1 : string) (ds es : list string) :
  getenv "OCIO_ACTIVE_DISPLAYS" = None ->
  is_cstring (getActiveDisplays configA) ->
  entries (getActiveDisplays configA) = d0 :: d1 :: ds ->
  is_cstring (getActiveDisplays configB) ->
  entries (getActiveDisplays configB) = e0 :: e1 :: es ->
  empty (active_display st) = true ->
  let first := configGetDefaultDisplay getenv configA st in
  let later := run_calls calls (snd first) in
  fst first = Some d0
  /\ configGetDefaultDisplay getenv configB later = (Some d0, later).
Proof.
  intros Henv HcA HentA HcB HentB Hempty first later.
  assert (HneA : getActiveDisplays configA <> "")
    by (intros E; rewrite E in HentA; discriminate).
  assert (HneB : getActiveDisplays configB <> "")
    by (intros E; rewrite E in HentB; discriminate).
  pose proof (configGetDefaultDisplay_workaround getenv configA st Henv HcA
                HneA d0 (d1 :: ds) HentA) as HA.
  rewrite Hempty in HA. destruct HA as (cached & HA & Hcut & Hfull).
  fold first in HA.
  assert (Hlater : active_display later = cached).
  { unfold later. rewrite run_calls_active_display; by rewrite HA. }
  pose proof (configGetDefaultDisplay_workaround getenv configB later Henv HcB
                HneB e0 (e1 :: es) HentB) as HB.
  rewrite Hlater, Hfull in HB.
  rewrite HA, HB, Hcut. split; reflexivity.
Qed.

Lemma configGetDefaultDisplay_cache_shared_witness :
  let first := configGetDefaultDisplay no_env legacy_config statics_init in
  let later :=
    run_calls [CallDefaultView no_env other_config "sRGB";
               CallDefaultDisplay no_env other_config] (snd first) in
  fst first = Some "display_b"
  /\ configGetDefaultDisplay no_env other_config later
     = (Some "display_b", later).
Proof.
  apply (configGetDefaultDisplay_cache_shared no_env legacy_config other_config
           statics_init _ "display_b" "display_a" "sRGB" "XYZ" [] []);
    reflexivity.
Defined.

(** ** Default view *)

Lemma elem_of_foldl_union (f : Z -> string) (l : list Z) :
  forall (acc : gset string) (x : string),
    x ∈ foldl (fun acc i => {[ f i ]} ∪ acc) acc l
    <-> x ∈ acc \/ exists i, i ∈ l /\ x = f i.
Proof.
  induction l as [ | i l IH]; intros acc x; simpl.
  - split; [auto | intros [H | (i & Hi & _)]; [exact H | ] ].
    by apply elem_of_nil in Hi.
  - rewrite IH. split.
    + intros [[->%elem_of_singleton | H]%elem_of_union | (j & Hj & ->)].
      * right. exists i. split; [left | reflexivity].
      * by left.
      * right. exists j. split; [by right | reflexivity].
    + intros [H | (j & Hj & ->)].
      * left. apply elem_of_union. by right.
      * apply elem_of_cons in Hj as [-> | Hj].
        -- left. apply elem_of_union. left. by apply elem_of_singleton.
        -- right. by exists j.
Qed.

(** The set built by the first loop holds the names of the views of the
    display, in lower case. *)
Lemma display_views_of_spec (config : Config) (display view : string) :
  stringToLower view ∈ display_views_of config display
  <-> is_view_of config display view.
Proof.
  unfold display_views_of, is_view_of, same_name.
  rewrite elem_of_foldl_union. split.
  - intros [H | (i & Hi & ->)]; [by apply not_elem_of_empty in H | ].
    apply elem_of_seqZ in Hi. exists i. split; [lia | done].
  - intros (i & Hi & Heq). right. exists i.
    split; [apply elem_of_seqZ; lia | done].
Qed.

(** The second loop returns at the first of the active views that is a view
    of the display, and falls through when there is none. *)
Lemma first_supported_view_spec (config : Config) (display : string)
    (views : list string) :
  match first_supported_view (display_views_of config display) views with
  | Some view => first_view_of config display views view
  | None => forall u, In u views -> ~ is_view_of config display u
  end.
Proof.
  unfold first_supported_view.
  induction views as [ | x l IH]; simpl; [tauto | ].
  destruct (bool_decide_reflect
              (stringToLower x ∈ display_views_of config display)) as [Hx | Hx].
  - exists [], l. rewrite <- display_views_of_spec. simpl. tauto.
  - rewrite display_views_of_spec in Hx.
    destruct (find _ l) as [v | ].
    + destruct IH as (before & after & -> & Hv & Hbefore).
      exists (x :: before), after. simpl. split; [done | split; [done | ] ].
      intros u [<- | Hu]; auto.
    + intros u [<- | Hu]; auto.
Qed.

(** The first of the views that is a view of the display is unique. *)
Lemma first_view_of_unique (config : Config) (display : string)
    (views : list string) (v w : string) :
  first_view_of config display views v ->
  first_view_of config display views w -> v = w.
Proof.
  intros (b1 & a1 & E1 & Hv & Hb1) (b2 & a2 & E2 & Hw & Hb2). subst views.
  revert b2 E2 Hb2. induction b1 as [ | x b1 IH]; intros b2 E2 Hb2.
  - destruct b2 as [ | y b2]; simpl in E2; [congruence | ].
    injection E2 as <- _. exfalso. apply (Hb2 v); [by left | exact Hv].
  - destruct b2 as [ | y b2]; simpl in E2.
    + injection E2 as -> _. exfalso. apply (Hb1 w); [by left | exact Hw].
    + injection E2 as <- E2. apply (IH (fun u Hu => Hb1 u (or_intror Hu)) b2 E2).
      intros u Hu. apply Hb2. by right.
Qed.

(** What [configGetDefaultView] does on a non-empty list of active views
    when the environment does not override it. *)
Lemma configGetDefaultView_workaround (getenv : Env) (config : Config)
    (display : string) (st : Statics) :
  getenv "OCIO_ACTIVE_VIEWS" = None ->
  is_cstring (getActiveViews config) ->
  getActiveViews config <> "" ->
  let key := stringToLower (c_str display) in
  let views := nonempty_delimited (getActiveViews config) in
  match default_display_views st !! key with
  | Some cached =>
      configGetDefaultView getenv config display st = (Some (c_str cached), st)
  | None =>
      (forall view,
         first_view_of config display views view ->
         configGetDefaultView getenv config display st
         = (Some view,
            mkStatics (active_display st)
                      (<[key := view]> (default_display_views st))))
      /\ ((forall u, In u views -> ~ is_view_of config display u) ->
          configGetDefaultView getenv config display st
          = (try_string (getDefaultView config display), st))
  end.
Proof.
  intros Henv Hc Hne key views. unfold configGetDefaultView.
  rewrite Henv, (char_at_0_cstring _ Hc Hne). fold key.
  destruct (default_display_views st !! key) as [cached | ]; [reflexivity | ].
  rewrite Hc, splitStringEnvStyle_delimited. fold views.
  pose proof (first_supported_view_spec config display views) as Hf.
  destruct (first_supported_view _ views) as [v | ].
  - split.
    + intros view Hview.
      rewrite (first_view_of_unique _ _ _ _ _ Hview Hf).
      assert (Hv : is_cstring v).
      { destruct Hf as (b & a & E & _).
        apply (delimited_by_is_cstring is_separator (getActiveViews config));
          [exact Hc | ].
        apply (proj1 (nonempty_delimited_In _ _)). fold views. rewrite E.
        apply in_or_app. right. by left. }
      by rewrite Hv.
    + intros Hnone. destruct Hf as (b & a & E & Hv & _).
      exfalso. apply (Hnone v); [ | exact Hv].
      rewrite E. apply in_or_app. right. by left.
  - split; [ | reflexivity].
    intros view (b & a & E & Hv & _). exfalso. apply (Hf view); [ | exact Hv].
    rewrite E. apply in_or_app. right. by left.
Qed.

(** A view cached for a display stays cached through every call. *)
Lemma run_call_cached (c : Call) (st : Statics) (key cached : string) :
  default_display_views st !! key = Some cached ->
  default_display_views (snd (run_call c st)) !! key = Some cached.
Proof.
  intros Hk. destruct c as [getenv config | getenv config display]; simpl.
  - unfold configGetDefaultDisplay.
    destruct (getenv _); [exact Hk | ].
    destruct (negb _); [ | exact Hk].
    destruct (strchr _ _); [ | exact Hk].
    by destruct (empty _).
  - unfold configGetDefaultView.
    destruct (getenv _); [exact Hk | ].
    destruct (negb _); [ | exact Hk].
    destruct (_ !! stringToLower (c_str display)) eqn:Hd; [exact Hk | ].
    destruct (first_supported_view _ _); [ | exact Hk]. simpl.
    rewrite lookup_insert_ne; [exact Hk | congruence].
Qed.

Lemma run_calls_cached (cs : list Call) (st : Statics) (key cached : string) :
  default_display_views st !! key = Some cached ->
  default_display_views (run_calls cs st) !! key = Some cached.
Proof.
  revert st. induction cs as [ | c cs IH]; intros st Hk; [exact Hk | ].
  unfold run_calls. simpl. fold (run_calls cs (snd (run_call c st))).
  apply IH. by apply run_call_cached.
Qed.

Example first_supported_view_legacy :
  first_supported_view (display_views_of legacy_config "sRGB")
                       (splitStringEnvStyle (getActiveViews legacy_config))
  = Some "Filmic".
Proof. vm_compute. reflexivity. Qed.

Example first_supported_view_other :
  first_supported_view (display_views_of other_config "sRGB")
                       (nonempty_delimited (getActiveViews other_config))
  = Some "Standard".
Proof. vm_compute. reflexivity. Qed.

(** C4, as stated, fails on a second configuration: after the default view
    of display "sRGB" was asked of [legacy_config], which caches "Filmic",
    asking [other_config] for the default view of "sRGB" returns "Filmic",
    which is not among its active views "Standard:Raw", whose first entry
    "Standard" is a view of the display. *)
Lemma configGetDefaultView_other_config :
  let st1 := snd (configGetDefaultView no_env legacy_config "sRGB" statics_init) in
  no_env "OCIO_ACTIVE_VIEWS" = None
  /\ first_view_of other_config "sRGB"
       (nonempty_delimited (getActiveViews other_config)) "Standard"
  /\ fst (configGetDefaultView no_env other_config "sRGB" st1) = Some "Filmic"
  /\ fst (configGetDefaultView no_env other_config "sRGB" st1) <> Some "Standard".
Proof.
  split; [reflexivity | split ].
  - pose proof (first_supported_view_spec other_config "sRGB"
                  (nonempty_delimited (getActiveViews other_config))) as H.
    by rewrite first_supported_view_other in H.
  - vm_compute. split; [reflexivity | discriminate].
Qed.

(** C4, amended.  When the environment does not override the active views
    and the list of the configuration is not empty: if no view is cached yet
    for the display (its name in lower case), [configGetDefaultView] returns
    the first entry of the active views that is, up to case, a view of the
    display, and caches it; if a view is cached it returns that one; and
    after the first case every later call for the same display name, up to
    case, returns the same cached value, whatever the configuration. *)
Theorem configGetDefaultView_first_view (getenv : Env) (config : Config)
    (display : string) (st : Statics) :
  getenv "OCIO_ACTIVE_VIEWS" = None ->
  is_cstring (getActiveViews config) ->
  getActiveViews config <> "" ->
  let key := stringToLower (c_str display) in
  let views := nonempty_delimited (getActiveViews config) in
  let first := configGetDefaultView getenv config display st in
  (forall view,
     default_display_views st !! key = None ->
     first_view_of config display views view ->
     first = (Some view,
              mkStatics (active_display st)
                        (<[key := view]> (default_display_views st)))
     /\ forall calls getenv' config' display',
          getenv' "OCIO_ACTIVE_VIEWS" = None ->
          is_cstring (getActiveViews config') ->
          getActiveViews config' <> "" ->
          same_name (c_str display') (c_str display) ->
          let later := run_calls calls (snd first) in
          configGetDefaultView getenv' config' display' later
          = (Some view, later))
  /\ (forall cached,
        default_display_views st !! key = Some cached ->
        first = (Some (c_str cached), st)).
Proof.
  intros Henv Hc Hne key views first.
  pose proof (configGetDefaultView_workaround getenv config display st Henv
                Hc Hne) as H.
  cbv zeta in H. fold key views first in H. split.
  - intros view Hmiss Hview. rewrite Hmiss in H. destruct H as [H _].
    specialize (H view Hview). split; [exact H | ].
    intros calls getenv' config' display' Henv' Hc' Hne' Hsame later.
    pose proof (configGetDefaultView_workaround getenv' config' display' later
                  Henv' Hc' Hne') as H'.
    cbv zeta in H'. unfold same_name in Hsame. rewrite Hsame in H'.
    fold key in H'.
    assert (Hk : default_display_views later !! key = Some view).
    { unfold later. apply run_calls_cached. rewrite H. simpl.
      apply lookup_insert_eq. }
    rewrite Hk in H'. rewrite H'.
    assert (Hv : is_cstring view).
    { destruct Hview as (b & a & E & _).
      apply (delimited_by_is_cstring is_separator (getActiveViews config));
        [exact Hc | ].
      apply (proj1 (nonempty_delimited_In _ _)). fold views. rewrite E.
      apply in_or_app. right. by left. }
    by rewrite Hv.
  - intros cached Hhit. by rewrite Hhit in H.
Qed.

Lemma configGetDefaultView_first_view_witness :
  let first := configGetDefaultView no_env legacy_config "sRGB" statics_init in
  (first = (Some "Filmic",
            mkStatics "" (<["srgb" := "Filmic"]> ∅))
   /\ let later :=
        run_calls [CallDefaultDisplay no_env other_config;
                   CallDefaultView no_env other_config "XYZ"] (snd first) in
      configGetDefaultView no_env other_config "SRGB" later
      = (Some "Filmic", later))
  /\ configGetDefaultView no_env legacy_config "Srgb" (snd first)
     = (Some "Filmic", snd first).
Proof.
  intros first.
  assert (Hfirst : first_view_of legacy_config "sRGB"
                     (nonempty_delimited (getActiveViews legacy_config))
                     "Filmic").
  { pose proof (first_supported_view_spec legacy_config "sRGB"
                  (nonempty_delimited (getActiveViews legacy_config))) as H.
    rewrite <- splitStringEnvStyle_delimited, first_supported_view_legacy in H.
    by rewrite <- splitStringEnvStyle_delimited. }
  split.
  - destruct (proj1 (configGetDefaultView_first_view no_env legacy_config "sRGB"
                       statics_init eq_refl eq_refl ltac:(discriminate))
                "Filmic" eq_refl Hfirst) as [H1 H2].
    split; [exact H1 | ].
    apply (H2 _ no_env other_config "SRGB");
      [reflexivity | reflexivity | discriminate | reflexivity].
  - apply (proj2 (configGetDefaultView_first_view no_env legacy_config "Srgb"
                    (snd first) eq_refl eq_refl ltac:(discriminate))
             "Filmic").
    vm_compute. reflexivity.
Defined.

(** * Further properties of the code *)

(** ** [splitStringEnvStyle] and [stringToLower] *)

Lemma delimited_token (t : string) :
  (forall c, occurs c t -> is_separator c = false) -> delimited t = [t].
Proof.
  unfold delimited. induction t as [ | x t IH]; intros H; simpl; [reflexivity | ].
  rewrite (H x (or_introl eq_refl)), IH; [reflexivity | ].
  intros c Hc. apply H. by right.
Qed.

Lemma delimited_app_separator (t s : string) (c : ascii) :
  (forall x, occurs x t -> is_separator x = false) ->
  is_separator c = true ->
  delimited (t +:+ String c s) = t :: delimited s.
Proof.
  unfold delimited. intros Ht Hc. induction t as [ | x t IH]; simpl.
  - by rewrite Hc.
  - rewrite (Ht x (or_introl eq_refl)), IH; [reflexivity | ].
    intros y Hy. apply Ht. by right.
Qed.

Lemma delimited_join_with (c : ascii) (l : list string) :
  is_separator c = true ->
  (forall t, In t l -> is_token t) ->
  l <> [] -> delimited (join_with c l) = l.
Proof.
  intros Hc. induction l as [ | t l IH]; intros Hl Hne; [done | ].
  destruct l as [ | u l].
  - simpl. apply delimited_token. apply (Hl t). by left.
  - change (join_with c (t :: u :: l))
      with (t +:+ String c (join_with c (u :: l))).
    rewrite delimited_app_separator; [ | apply (Hl t); by left | exact Hc].
    rewrite IH; [reflexivity | | done].
    intros v Hv. apply Hl. by right.
Qed.

(** X1. Splitting undoes joining: tokens written with a ',' or a ':' between
    them are read back as they were. *)
Theorem splitStringEnvStyle_join_with (c : ascii) (l : list string) :
  c = ","%char \/ c = ":"%char ->
  (forall t, In t l -> is_token t) ->
  splitStringEnvStyle (join_with c l) = l.
Proof.
  intros Hc%is_separator_spec Hl.
  rewrite splitStringEnvStyle_delimited. unfold nonempty_delimited.
  destruct l as [ | t l]; [reflexivity | ].
  rewrite delimited_join_with; [ | exact Hc | exact Hl | done].
  apply forallb_filter_id, forallb_forall. intros u Hu.
  destruct (Hl u Hu) as [Hne _]. by destruct u.
Qed.

Lemma splitStringEnvStyle_join_with_witness :
  splitStringEnvStyle (join_with ":" ["Filmic"; "Standard"; "Raw"])
  = ["Filmic"; "Standard"; "Raw"].
Proof.
  apply splitStringEnvStyle_join_with; [by right | ].
  intros t Ht. split.
  - intros ->. simpl in Ht. intuition discriminate.
  - intros c Hc. simpl in Ht.
    destruct Ht as [<- | [<- | [<- | []]]]; simpl in Hc;
      repeat (destruct Hc as [<- | Hc]; [reflexivity | ]); destruct Hc.
Defined.

Lemma concat_delimited (s : string) :
  concat_strings (delimited s) = string_remove is_separator s.
Proof.
  unfold delimited. induction s as [ | c s IH]; simpl; [reflexivity | ].
  destruct (is_separator c); simpl; [exact IH | ].
  pose proof (delimited_by_not_nil is_separator s) as Hne.
  destruct (delimited_by is_separator s) as [ | t ts]; [done | ].
  simpl in *. by rewrite IH.
Qed.

Lemma concat_filter_nonempty (l : list string) :
  concat_strings (List.filter (fun t => negb (empty t)) l) = concat_strings l.
Proof.
  induction l as [ | t l IH]; simpl; [reflexivity | ].
  destruct t; simpl; [exact IH | by rewrite IH].
Qed.

(** X2. The tokens, one after the other, are the argument without its
    separators: no other character is dropped, added or moved. *)
Theorem splitStringEnvStyle_concat (str : string) :
  concat_strings (splitStringEnvStyle str) = string_remove is_separator str.
Proof.
  rewrite splitStringEnvStyle_delimited. unfold nonempty_delimited.
  rewrite concat_filter_nonempty. apply concat_delimited.
Qed.

Lemma string_remove_nil (s : string) :
  string_remove is_separator s = "" <->
  forall c, occurs c s -> is_separator c = true.
Proof.
  induction s as [ | x s IH]; simpl; [tauto | ].
  destruct (is_separator x) eqn:Ex.
  - rewrite IH. split; [intros H c [<- | Hc]; auto | intros H c Hc; auto].
  - split; [discriminate | ]. intros H.
    specialize (H x (or_introl eq_refl)). congruence.
Qed.

Lemma concat_tokens_nil (l : list string) :
  (forall t, In t l -> t <> "") -> concat_strings l = "" -> l = [].
Proof.
  destruct l as [ | t l]; [reflexivity | ]. intros H. simpl.
  destruct t; [ | discriminate]. exfalso. by apply (H ""); [left | ].
Qed.

(** X3. No token is found exactly when the argument holds nothing but
    separators; the empty string is such an argument. *)
Theorem splitStringEnvStyle_nil (str : string) :
  splitStringEnvStyle str = []
  <-> forall c, occurs c str -> c = ","%char \/ c = ":"%char.
Proof.
  assert (H : splitStringEnvStyle str = []
              <-> string_remove is_separator str = "").
  { rewrite <- splitStringEnvStyle_concat. split; [by intros -> | ].
    apply concat_tokens_nil. intros t Ht.
    rewrite splitStringEnvStyle_delimited in Ht.
    by apply nonempty_delimited_In in Ht as [_ Ht]. }
  rewrite H, string_remove_nil.
  split; intros Hs c Hc; apply is_separator_spec, Hs, Hc.
Qed.

Lemma splitStringEnvStyle_nil_witness : splitStringEnvStyle ",:," = [].
Proof.
  apply (proj2 (splitStringEnvStyle_nil ",:,")).
  intros c Hc. simpl in Hc.
  destruct Hc as [<- | [<- | [<- | []]]]; auto.
Defined.

Lemma tolower_idempotent (c : ascii) : tolower (tolower c) = tolower c.
Proof. destruct c as [[] [] [] [] [] [] [] []]; reflexivity. Qed.

Lemma tolower_NUL (c : ascii) : tolower c = NUL <-> c = NUL.
Proof.
  destruct c as [[] [] [] [] [] [] [] []]; vm_compute; split; congruence.
Qed.

(** X4. Lower-casing a name a second time changes nothing, keeps the length of
    the name, and neither makes nor removes a NUL character, so that the
    keys of the cache of default views are C strings in lower case. *)
Theorem stringToLower_normal (str : string) :
  stringToLower (stringToLower str) = stringToLower str
  /\ String.length (stringToLower str) = String.length str
  /\ (is_cstring (stringToLower str) <-> is_cstring str).
Proof.
  unfold stringToLower. split; [ | split].
  - induction str as [ | c s IH]; simpl; [reflexivity | ].
    by rewrite tolower_idempotent, IH.
  - induction str as [ | c s IH]; simpl; [reflexivity | by rewrite IH].
  - induction str as [ | c s IH]; simpl; [reflexivity | ].
    rewrite !is_cstring_cons, IH, tolower_NUL. reflexivity.
Qed.

(** ** The caches of the default display and of the default views *)

Lemma char_at_0_empty (s : string) :
  c_str s = "" -> negb (Ascii.eqb (char_at s 0) NUL) = false.
Proof.
  destruct s as [ | c s]; [reflexivity | ].
  change (char_at (String c s) 0) with c. simpl.
  by destruct (Ascii.eqb c NUL).
Qed.

(** X5. Both caches are written once: through any sequence of calls, a
    default display that is cached stays as it is, and a view cached for a
    display is neither replaced nor removed. *)
Theorem statics_written_once (calls : list Call) (st : Statics) :
  (empty (active_display st) = false ->
   active_display (run_calls calls st) = active_display st)
  /\ (forall key cached,
        default_display_views st !! key = Some cached ->
        default_display_views (run_calls calls st) !! key = Some cached).
Proof.
  split; [apply run_calls_active_display | ].
  intros key cached. apply run_calls_cached.
Qed.

Lemma statics_written_once_witness :
  let st := run_calls [CallDefaultDisplay no_env legacy_config;
                       CallDefaultView no_env legacy_config "sRGB"]
                      statics_init in
  let st' := run_calls [CallDefaultView no_env other_config "SRGB";
                        CallDefaultDisplay no_env other_config;
                        CallDefaultView no_env other_config "XYZ"] st in
  active_display st' = active_display st
  /\ default_display_views st' !! "srgb" = Some "Filmic".
Proof.
  intros st st'. split.
  - apply (proj1 (statics_written_once _ st)). reflexivity.
  - apply (proj2 (statics_written_once _ st)). vm_compute. reflexivity.
Defined.

(** X6. [configGetDefaultDisplay] hands back the answer of the library,
    [NULL] when the library throws, and leaves the [static] variables alone,
    when the override variable is set and when the list of active displays
    is empty.  It never touches the cache of default views, and it changes
    the cached display only when none is cached. *)
Theorem configGetDefaultDisplay_library (getenv : Env) (config : Config)
    (st : Statics) :
  (getenv "OCIO_ACTIVE_DISPLAYS" <> None \/ c_str (getActiveDisplays config) = "" ->
   configGetDefaultDisplay getenv config st
   = (try_string (getDefaultDisplay config), st))
  /\ default_display_views (snd (configGetDefaultDisplay getenv config st))
     = default_display_views st
  /\ (empty (active_display st) = false ->
      snd (configGetDefaultDisplay getenv config st) = st).
Proof.
  unfold configGetDefaultDisplay. split; [ | split].
  - intros [Henv | Hempty].
    + by destruct (getenv "OCIO_ACTIVE_DISPLAYS").
    + rewrite (char_at_0_empty _ Hempty).
      by destruct (getenv "OCIO_ACTIVE_DISPLAYS").
  - destruct (getenv _); [reflexivity | ].
    destruct (negb _); [ | reflexivity].
    destruct (strchr _ _); [ | reflexivity]. by destruct (empty _).
  - intros He. destruct (getenv _); [reflexivity | ].
    destruct (negb _); [ | reflexivity].
    destruct (strchr _ _); [ | reflexivity]. by rewrite He.
Qed.

Lemma configGetDefaultDisplay_library_witness :
  configGetDefaultDisplay (fun _ => Some "display_a") legacy_config statics_init
  = (Some "display_a", statics_init)
  /\ snd (configGetDefaultDisplay no_env other_config
            (snd (configGetDefaultDisplay no_env legacy_config statics_init)))
     = snd (configGetDefaultDisplay no_env legacy_config statics_init).
Proof.
  split.
  - apply (proj1 (configGetDefaultDisplay_library (fun _ => Some "display_a")
                    legacy_config statics_init)).
    left. discriminate.
  - apply (proj2 (proj2 (configGetDefaultDisplay_library no_env other_config _))).
    reflexivity.
Defined.

(** X7. [configGetDefaultView] hands back the answer of the library, [NULL]
    when the library throws, and caches nothing, when the override variable
    is set, when the list of active views is empty, and when no view is
    cached for the display and none of the active views is a view of it.  In
    every case it leaves the cached display and the views cached for other
    displays as they are. *)
Theorem configGetDefaultView_library (getenv : Env) (config : Config)
    (display : string) (st : Statics) :
  let key := stringToLower (c_str display) in
  (getenv "OCIO_ACTIVE_VIEWS" <> None \/ c_str (getActiveViews config) = ""
   \/ (default_display_views st !! key = None
       /\ forall u, In u (splitStringEnvStyle (c_str (getActiveViews config))) ->
                    ~ is_view_of config display u) ->
   configGetDefaultView getenv config display st
   = (try_string (getDefaultView config display), st))
  /\ active_display (snd (configGetDefaultView getenv config display st))
     = active_display st
  /\ (forall other, other <> key ->
        default_display_views
          (snd (configGetDefaultView getenv config display st)) !! other
        = default_display_views st !! other).
Proof.
  intros key. unfold configGetDefaultView. fold key. split; [ | split].
  - intros [Henv | [Hempty | [Hmiss Hnone]]].
    + by destruct (getenv "OCIO_ACTIVE_VIEWS").
    + rewrite (char_at_0_empty _ Hempty).
      by destruct (getenv "OCIO_ACTIVE_VIEWS").
    + destruct (getenv _); [reflexivity | ].
      destruct (negb _); [ | reflexivity]. rewrite Hmiss.
      pose proof (first_supported_view_spec config display
                    (splitStringEnvStyle (c_str (getActiveViews config)))) as Hf.
      destruct (first_supported_view _ _) as [v | ]; [ | reflexivity].
      destruct Hf as (b & a & E & Hv & _). exfalso.
      apply (Hnone v); [ | exact Hv]. rewrite E. apply in_or_app. right. by left.
  - destruct (getenv _); [reflexivity | ].
    destruct (negb _); [ | reflexivity].
    destruct (_ !! key); [reflexivity | ].
    by destruct (first_supported_view _ _).
  - intros other Hother. destruct (getenv _); [reflexivity | ].
    destruct (negb _); [ | reflexivity].
    destruct (_ !! key); [reflexivity | ].
    destruct (first_supported_view _ _); [ | reflexivity]. simpl.
    by rewrite lookup_insert_ne.
Qed.

Lemma configGetDefaultView_library_witness :
  configGetDefaultView (fun _ => Some "Raw") legacy_config "sRGB" statics_init
  = (Some "Standard", statics_init)
  /\ default_display_views
       (snd (configGetDefaultView no_env legacy_config "sRGB" statics_init))
     !! "xyz" = None.
Proof.
  split.
  - apply (proj1 (configGetDefaultView_library (fun _ => Some "Raw")
                    legacy_config "sRGB" statics_init)).
    left. discriminate.
  - rewrite (proj2 (proj2 (configGetDefaultView_library no_env legacy_config
                             "sRGB" statics_init)) "xyz");
      [reflexivity | discriminate].
Defined.

(** X8. A view that a call of [configGetDefaultView] caches for a display
    is the view the call returns, is one of the tokens of the active views,
    spelled as it is there, and is a view of that display up to case. *)
Theorem configGetDefaultView_cached_view (getenv : Env) (config : Config)
    (display : string) (st : Statics) (view : string) :
  let key := stringToLower (c_str display) in
  let after := configGetDefaultView getenv config display st in
  default_display_views st !! key = None ->
  default_display_views (snd after) !! key = Some view ->
  fst after = Some view
  /\ In view (splitStringEnvStyle (c_str (getActiveViews config)))
  /\ is_view_of config display view.
Proof.
  intros key after Hmiss. unfold after, configGetDefaultView. fold key.
  destruct (getenv "OCIO_ACTIVE_VIEWS"); simpl; [congruence | ].
  destruct (negb _); simpl; [ | congruence].
  rewrite Hmiss.
  pose proof (first_supported_view_spec config display
                (splitStringEnvStyle (c_str (getActiveViews config)))) as Hf.
  destruct (first_supported_view _ _) as [v | ]; simpl; [ | congruence].
  rewrite lookup_insert_eq. intros [= <-].
  destruct Hf as (b & a & E & Hv & _).
  assert (Hin : In v (splitStringEnvStyle (c_str (getActiveViews config))))
    by (rewrite E; apply in_or_app; right; by left).
  split; [ | by split].
  assert (Hc : is_cstring v).
  { rewrite splitStringEnvStyle_delimited in Hin.
    apply nonempty_delimited_In in Hin as [Hin _].
    eapply delimited_by_is_cstring; [apply c_str_is_cstring | exact Hin]. }
  by rewrite Hc.
Qed.

Lemma configGetDefaultView_cached_view_witness :
  fst (configGetDefaultView no_env legacy_config "sRGB" statics_init)
  = Some "Filmic"
  /\ In "Filmic" (splitStringEnvStyle (c_str (getActiveViews legacy_config)))
  /\ is_view_of legacy_config "sRGB" "Filmic".
Proof.
  apply (configGetDefaultView_cached_view no_env legacy_config "sRGB"
           statics_init "Filmic"); [reflexivity | vm_compute; reflexivity].
Defined.

(** ** More on the classification of colour spaces *)

(** X9. [compare_floats] holds of a value and itself for every positive
    number of steps allowed, whatever the absolute tolerance: of finite
    values, of infinities and of a NaN read twice with the same bits. *)
Theorem compare_floats_same (nan_bits : Z) (x abs_diff : float) (ulp_diff : Z) :
  (0 < ulp_diff)%Z ->
  compare_floats nan_bits x x abs_diff ulp_diff = F32.one.
Proof.
  intros Hulp. unfold compare_floats.
  destruct (F32.ltb (F32.abs (F32.sub x x)) abs_diff); [reflexivity | ].
  rewrite eqb_reflx. cbn [negb]. rewrite Z.sub_diag.
  change (F32.int_of_bits (Z.abs (F32.int_of_bits 0))) with 0%Z.
  by destruct (Z.ltb_spec 0 ulp_diff); [ | lia].
Qed.

Lemma compare_floats_same_witness :
  compare_floats 0x7fc00000 S754_nan S754_nan f32_1e_6 64 = F32.one.
Proof. apply compare_floats_same. reflexivity. Defined.

Section ClassificationMore.
Variable nan_bits : Z.
Variable srgb_to_linearrgb : float -> float.
Variable device_processor : CPUProcessor.

Local Abbreviation sample :=
  (builtin_sample nan_bits srgb_to_linearrgb device_processor).
Local Abbreviation loop :=
  (builtin_loop nan_bits srgb_to_linearrgb device_processor).
Local Abbreviation verdict :=
  (sample_verdict nan_bits srgb_to_linearrgb device_processor).

(** The body of the loop clears what its sample clears and keeps the rest;
    whether it leaves the loop does not depend on the flags. *)
Lemma builtin_sample_verdict (i : Z) (fl : Builtin) :
  sample i fl
  = (mkBuiltin (is_scene_linear fl && is_scene_linear (verdict i))
               (is_srgb fl && is_srgb (verdict i)),
     snd (sample i (mkBuiltin true true))).
Proof.
  unfold sample_verdict, builtin_sample. destruct fl as [l s].
  repeat match goal with
         | |- context [if ?c then _ else _] => destruct c
         end; simpl; rewrite ?andb_true_r, ?andb_false_r; reflexivity.
Qed.

(** The loop is left early only with both flags cleared. *)
Lemma builtin_sample_stop (i : Z) (fl : Builtin) :
  snd (sample i fl) = true -> fst (sample i fl) = mkBuiltin false false.
Proof.
  unfold builtin_sample.
  repeat match goal with
         | |- context [if ?c then _ else _] => destruct c
         end; simpl; intros; congruence.
Qed.

Lemma builtin_loop_verdicts (n : nat) :
  forall i fl calls,
    fst (loop n i fl calls)
    = mkBuiltin
        (is_scene_linear fl
         && forallb (fun j => is_scene_linear (verdict j)) (indices i n))
        (is_srgb fl && forallb (fun j => is_srgb (verdict j)) (indices i n)).
Proof.
  induction n as [ | n IH]; intros i fl calls; cbn [builtin_loop indices forallb].
  - rewrite !andb_true_r. by destruct fl.
  - pose proof (builtin_sample_stop i fl) as Hstop.
    rewrite (builtin_sample_verdict i fl) in *. cbn [fst snd] in Hstop.
    destruct (snd (sample i (mkBuiltin true true))).
    + specialize (Hstop eq_refl). injection Hstop as Hl Hs. cbn [fst].
      destruct (is_scene_linear fl), (is_srgb fl); simpl in *;
        rewrite ?Hl, ?Hs; reflexivity.
    + rewrite IH. cbn [is_scene_linear is_srgb]. by rewrite !andb_assoc.
Qed.

Lemma builtin_loop_calls (n : nat) :
  forall i fl calls,
    exists m, m <= n /\ (0 < n -> 0 < m)
      /\ snd (loop n i fl calls) = calls ++ calls_of i m
      /\ (m < n -> fst (loop n i fl calls) = mkBuiltin false false).
Proof.
  induction n as [ | n IH]; intros i fl calls.
  - exists 0. cbn [builtin_loop calls_of]. rewrite app_nil_r.
    repeat split; lia.
  - cbn [builtin_loop]. pose proof (builtin_sample_stop i fl) as Hstop.
    destruct (sample i fl) as [fl' stop]. cbn [fst snd] in Hstop.
    destruct stop.
    + exists 1. cbn [calls_of]. rewrite app_nil_r.
      split; [lia | split; [lia | split; [reflexivity | auto] ] ].
    + destruct (IH (i + 1)%Z fl' (calls ++ probes (intensity i)))
        as (m & Hm & _ & Hcalls & Hfl).
      exists (S m). cbn [calls_of]. rewrite Hcalls, app_assoc.
      split; [lia | split; [lia | split; [reflexivity | ] ] ].
      intros Hlt. apply Hfl. lia.
Qed.

Lemma calls_of_length (m : nat) : forall i, length (calls_of i m) = 4 * m.
Proof.
  induction m as [ | m IH]; intros i; [reflexivity | ].
  cbn [calls_of]. rewrite length_app, IH. simpl. lia.
Qed.

Lemma indices_In (n : nat) :
  forall i j, In j (indices i n) <-> (i <= j < i + Z.of_nat n)%Z.
Proof.
  induction n as [ | n IH]; intros i j; cbn [indices In]; [lia | ].
  rewrite IH. lia.
Qed.
End ClassificationMore.

(** X10. When a processor is at hand, [colorSpaceIsBuiltin] hands four
    pixels to it for each sample it examines, at least one sample and at
    most 256, the samples [0 .. m - 1]; it stops before the last sample only
    with both flags false, so a colour space reported scene linear or sRGB
    has had all 1024 pixels applied. *)
Theorem colorSpaceIsBuiltin_calls (nan_bits : Z)
    (srgb_to_linearrgb : float -> float) (config : Config) (cs : ColorSpace)
    (processor : Processor) (device_processor : CPUProcessor) :
  getProcessor config (getName cs) "scene_linear" = Returns (Some processor) ->
  getDefaultCPUProcessor processor = Some device_processor ->
  exists fl calls m,
    colorSpaceIsBuiltin nan_bits srgb_to_linearrgb config cs = Some (fl, calls)
    /\ 1 <= m <= 256 /\ calls = calls_of 0 m /\ length calls = 4 * m
    /\ (m < 256 -> fl = mkBuiltin false false)
    /\ (is_scene_linear fl = true \/ is_srgb fl = true -> length calls = 1024).
Proof.
  intros Hp Hd. unfold colorSpaceIsBuiltin. rewrite Hp, Hd.
  destruct (builtin_loop_calls nan_bits srgb_to_linearrgb device_processor
              256 0 (mkBuiltin true true) []) as (m & Hm & Hpos & Hcalls & Hfl).
  destruct (builtin_loop _ _ _ _ _ _ _) as [fl calls]. cbn [fst snd] in *.
  exists fl, calls, m. subst calls. rewrite app_nil_l, calls_of_length.
  split; [reflexivity | ].
  split; [lia | ]. split; [reflexivity | ]. split; [reflexivity | ].
  split; [exact Hfl | ].
  intros Hflag. destruct (decide (m < 256)) as [Hlt | Hge]; [ | lia].
  rewrite (Hfl Hlt) in Hflag. simpl in Hflag. intuition discriminate.
Qed.

Lemma colorSpaceIsBuiltin_calls_witness :
  exists fl calls m,
    colorSpaceIsBuiltin 0x7fc00000 (fun v => v) legacy_config
      (cs_of "XYZ" "" false None)
    = Some (fl, calls)
    /\ 1 <= m <= 256 /\ calls = calls_of 0 m /\ length calls = 4 * m
    /\ (m < 256 -> fl = mkBuiltin false false)
    /\ (is_scene_linear fl = true \/ is_srgb fl = true -> length calls = 1024).
Proof.
  apply (colorSpaceIsBuiltin_calls _ _ legacy_config _
           (mkProcessor (Some rotating_cpu)) rotating_cpu); reflexivity.
Defined.

(** X11. The flags [colorSpaceIsBuiltin] reports are the conjunctions of the
    verdicts of the 256 samples: a colour space is reported scene linear
    exactly when every sample, taken alone, leaves that flag set, and
    likewise for sRGB. *)
Theorem colorSpaceIsBuiltin_verdicts (nan_bits : Z)
    (srgb_to_linearrgb : float -> float) (config : Config) (cs : ColorSpace)
    (processor : Processor) (device_processor : CPUProcessor) :
  getProcessor config (getName cs) "scene_linear" = Returns (Some processor) ->
  getDefaultCPUProcessor processor = Some device_processor ->
  let verdict := sample_verdict nan_bits srgb_to_linearrgb device_processor in
  exists fl calls,
    colorSpaceIsBuiltin nan_bits srgb_to_linearrgb config cs = Some (fl, calls)
    /\ (is_scene_linear fl = true
        <-> forall i, (0 <= i < 256)%Z -> is_scene_linear (verdict i) = true)
    /\ (is_srgb fl = true
        <-> forall i, (0 <= i < 256)%Z -> is_srgb (verdict i) = true).
Proof.
  intros Hp Hd verdict. unfold colorSpaceIsBuiltin. rewrite Hp, Hd.
  pose proof (builtin_loop_verdicts nan_bits srgb_to_linearrgb device_processor
                256 0 (mkBuiltin true true) []) as Hv.
  destruct (builtin_loop _ _ _ _ _ _ _) as [fl calls]. cbn [fst] in Hv.
  exists fl, calls. split; [reflexivity | ]. subst fl.
  cbn [is_scene_linear is_srgb andb]. rewrite !forallb_forall.
  split; (split; [intros H i Hi; apply H, indices_In; lia | ]);
    intros H i Hi%indices_In; apply H; lia.
Qed.

Lemma colorSpaceIsBuiltin_verdicts_witness :
  exists fl calls,
    colorSpaceIsBuiltin 0x7fc00000 (fun v => v) legacy_config
      (cs_of "XYZ" "" false None)
    = Some (fl, calls)
    /\ (is_scene_linear fl = true
        <-> forall i, (0 <= i < 256)%Z ->
              is_scene_linear
                (sample_verdict 0x7fc00000 (fun v => v) rotating_cpu i) = true)
    /\ (is_srgb fl = true
        <-> forall i, (0 <= i < 256)%Z ->
              is_srgb (sample_verdict 0x7fc00000 (fun v => v) rotating_cpu i)
              = true).
Proof.
  apply (colorSpaceIsBuiltin_verdicts _ _ legacy_config _
           (mkProcessor (Some rotating_cpu)) rotating_cpu); reflexivity.
Defined.

Lemma builtin_sample_ext (nan_bits : Z) (srgb_to_linearrgb : float -> float)
    (dp dp' : CPUProcessor) (i : Z) (fl : Builtin) :
  (forall p, applyRGB dp p = applyRGB dp' p) ->
  builtin_sample nan_bits srgb_to_linearrgb dp i fl
  = builtin_sample nan_bits srgb_to_linearrgb dp' i fl.
Proof. intros H. unfold builtin_sample. by rewrite !H. Qed.

(** Whether a sample leaves the scene linear flag set does not depend on the
    sRGB transfer function. *)
Lemma sample_verdict_linear (nan_bits : Z) (srgb srgb' : float -> float)
    (dp : CPUProcessor) (i : Z) :
  is_scene_linear (sample_verdict nan_bits srgb dp i)
  = is_scene_linear (sample_verdict nan_bits srgb' dp i).
Proof.
  unfold sample_verdict, builtin_sample.
  repeat match goal with
         | |- context [if ?c then _ else _] => destruct c
         end; reflexivity.
Qed.

Lemma forallb_pointwise {A : Type} (f g : A -> bool) (l : list A) :
  (forall x, f x = g x) -> forallb f l = forallb g l.
Proof.
  intros H. induction l as [ | x l IH]; simpl; [reflexivity | ].
  by rewrite H, IH.
Qed.

(** Every sample of the identity processor leaves the scene linear flag
    set: the mean of three equal channels, computed in binary32, is within
    the tolerance of the channel. *)
Lemma identity_samples_linear (nan_bits : Z) :
  forallb (fun i => is_scene_linear
                      (sample_verdict nan_bits (fun v => v) identity_cpu i))
          (indices 0 256) = true.
Proof. vm_compute. reflexivity. Qed.

(** X12. A colour space whose processor to scene linear returns every pixel
    as it is given is reported scene linear, after all 1024 pixels have been
    applied, whatever the sRGB transfer function is. *)
Theorem colorSpaceIsBuiltin_identity (nan_bits : Z)
    (srgb_to_linearrgb : float -> float) (config : Config) (cs : ColorSpace)
    (processor : Processor) (device_processor : CPUProcessor) :
  getProcessor config (getName cs) "scene_linear" = Returns (Some processor) ->
  getDefaultCPUProcessor processor = Some device_processor ->
  (forall pixel, applyRGB device_processor pixel = pixel) ->
  exists fl calls,
    colorSpaceIsBuiltin nan_bits srgb_to_linearrgb config cs = Some (fl, calls)
    /\ is_scene_linear fl = true /\ length calls = 1024.
Proof.
  intros Hp Hd Hid. unfold colorSpaceIsBuiltin. rewrite Hp, Hd.
  pose proof (builtin_loop_verdicts nan_bits srgb_to_linearrgb device_processor
                256 0 (mkBuiltin true true) []) as Hv.
  destruct (builtin_loop_calls nan_bits srgb_to_linearrgb device_processor
              256 0 (mkBuiltin true true) []) as (m & Hm & _ & Hcalls & Hfl).
  destruct (builtin_loop _ _ _ _ _ _ _) as [fl calls]. cbn [fst snd] in *.
  exists fl, calls. split; [reflexivity | ].
  assert (Hlin : is_scene_linear fl = true).
  { subst fl. cbn [is_scene_linear andb].
    rewrite <- (identity_samples_linear nan_bits).
    apply forallb_pointwise. intros i.
    rewrite (sample_verdict_linear nan_bits srgb_to_linearrgb (fun v => v)).
    unfold sample_verdict. f_equal. f_equal.
    apply builtin_sample_ext. intros p. by rewrite Hid. }
  split; [exact Hlin | ].
  subst calls. rewrite app_nil_l, calls_of_length.
  destruct (decide (m < 256)) as [Hlt | Hge]; [ | lia].
  rewrite (Hfl Hlt) in Hlin. discriminate.
Qed.

Lemma colorSpaceIsBuiltin_identity_witness :
  exists fl calls,
    colorSpaceIsBuiltin 0xffc00000 (fun v => F32.mul v v) legacy_config cs_linear
    = Some (fl, calls)
    /\ is_scene_linear fl = true /\ length calls = 1024.
Proof.
  apply (colorSpaceIsBuiltin_identity _ _ legacy_config cs_linear
           (mkProcessor (Some identity_cpu)) identity_cpu); reflexivity.
Defined.

(** ** More on the display processor *)

(** X13. With a scale other than 1, the group is the conversion of the
    input space to scene linear and the diagonal matrix of the scale,
    followed by the group that scale 1 gives from scene linear; with scale 1
    the group holds neither a colour space transform nor a matrix. *)
Theorem display_group_exposure (config : Config) (input view display : string)
    (look : option string) (scale exponent : float) :
  (F32.eqb scale F32.one = false ->
   display_group config input view display look scale exponent
   = (fun rest => ColorSpaceTransform input ROLE_SCENE_LINEAR
                  :: MatrixTransform (scale_matrix scale) :: rest)
     <$> display_group config ROLE_SCENE_LINEAR view display look F32.one
                       exponent)
  /\ (F32.eqb scale F32.one = true ->
      forall group t,
        display_group config input view display look scale exponent
        = Some group ->
        In t group ->
        match t with
        | ColorSpaceTransform _ _ | MatrixTransform _ => False
        | _ => True
        end).
Proof.
  unfold display_group, F32.neqb. split; intros Hs; rewrite Hs.
  - change (F32.eqb F32.one F32.one) with true. cbn [negb app].
    destruct look as [look | ]; [ | reflexivity].
    destruct (0 <? strlen look)%nat, (negb (F32.eqb exponent F32.one));
      reflexivity.
  - cbn [negb]. intros group t Hg Ht. cbv iota beta in Hg.
    destruct look as [look | ]; [ | discriminate].
    destruct (0 <? strlen look)%nat, (negb (F32.eqb exponent F32.one));
      injection Hg as <-; simpl in Ht; intuition (subst; exact I).
Qed.

Lemma display_group_exposure_witness :
  display_group legacy_config "Linear" "Filmic" "sRGB" (Some "")
                (F32.of_int 2) F32.one
  = Some [ColorSpaceTransform "Linear" "scene_linear";
          MatrixTransform (scale_matrix (F32.of_int 2));
          DisplayViewTransform "scene_linear" true "Filmic" "sRGB"]
  /\ forall group t,
       display_group legacy_config "Linear" "Filmic" "sRGB" (Some "High Contrast")
                     F32.one (F32.of_int 2) = Some group ->
       In t group ->
       match t with
       | ColorSpaceTransform _ _ | MatrixTransform _ => False
       | _ => True
       end.
Proof.
  split.
  - rewrite (proj1 (display_group_exposure legacy_config "Linear" "Filmic"
                     "sRGB" (Some "") (F32.of_int 2) F32.one));
      reflexivity.
  - apply (proj2 (display_group_exposure legacy_config "Linear" "Filmic"
                    "sRGB" (Some "High Contrast") F32.one (F32.of_int 2))).
    reflexivity.
Defined.

(** X14. Every group [createDisplayProcessor] assembles is connected from
    the input space: each transform takes the pixels from the space the
    transform before it left them in, the display/view transform reading
    from scene linear after an exposure and from the result space of the
    look after a look.  The group holds between one and five transforms. *)
Theorem display_group_connected (config : Config) (input view display : string)
    (look : option string) (scale exponent : float) (group : GroupTransform) :
  display_group config input view display look scale exponent = Some group ->
  connected (Some input) group = true /\ 1 <= length group <= 5.
Proof.
  unfold display_group.
  destruct (F32.neqb scale F32.one); (destruct look as [look | ]; [ | discriminate]);
    destruct (0 <? strlen look)%nat, (F32.neqb exponent F32.one);
    intros [= <-]; cbn [app connected length];
    rewrite ?bool_decide_eq_true_2 by reflexivity; (split; [reflexivity | lia]).
Qed.

Lemma display_group_connected_witness :
  connected (Some "Linear")
    [ColorSpaceTransform "Linear" "scene_linear";
     MatrixTransform (scale_matrix (F32.of_int 2));
     LookTransform "scene_linear" "Linear" "High Contrast";
     DisplayViewTransform "Linear" true "Filmic" "sRGB";
     ExponentTransform [F32.of_int 2; F32.of_int 2; F32.of_int 2; f32_1]]
  = true
  /\ 1 <= 5 <= 5.
Proof.
  apply (display_group_connected legacy_config "Linear" "Filmic" "sRGB"
           (Some "High Contrast") (F32.of_int 2) (F32.of_int 2)).
  reflexivity.
Defined.

(** ** More on the XYZ to RGB matrix *)

(** [to_scene_linear_matrix] fails exactly when the library does not come
    up with a CPU processor. *)
Lemma to_scene_linear_matrix_None (config : Config) (colorspace : string) :
  to_scene_linear_matrix config colorspace = None
  <-> (exists what,
         getProcessor config colorspace ROLE_SCENE_LINEAR = Throws what)
      \/ getProcessor config colorspace ROLE_SCENE_LINEAR = Returns None
      \/ getProcessor config colorspace ROLE_SCENE_LINEAR
         = Returns (Some (mkProcessor None)).
Proof.
  unfold to_scene_linear_matrix.
  destruct (getProcessor config colorspace ROLE_SCENE_LINEAR)
    as [[[[dp | ]] | ] | what]; split; intros H; try done; eauto.
  all: destruct H as [[w H] | [H | H]]; discriminate.
Qed.

(** X15. [configGetXYZtoRGB] leaves the default matrix in place whenever it
    has nothing to derive another from: without a scene linear role; with
    it and the "aces_interchange" role, when the library throws or hands
    back a null processor or a null CPU processor for "aces_interchange";
    with neither the "aces_interchange" nor the "XYZ" role.  When that
    processor exists, the matrix is the product of the rows it makes of the
    three basis vectors with [xyz_to_aces]. *)
Theorem configGetXYZtoRGB_cases (D : M3) (mul : M3 -> M3 -> M3) (config : Config) :
  (hasRole config ROLE_SCENE_LINEAR = false -> configGetXYZtoRGB D mul config = D)
  /\ (hasRole config ROLE_SCENE_LINEAR = true ->
      hasRole config "aces_interchange" = true ->
      ((exists what, getProcessor config "aces_interchange" ROLE_SCENE_LINEAR
                     = Throws what)
       \/ getProcessor config "aces_interchange" ROLE_SCENE_LINEAR = Returns None
       \/ getProcessor config "aces_interchange" ROLE_SCENE_LINEAR
          = Returns (Some (mkProcessor None))) ->
      configGetXYZtoRGB D mul config = D)
  /\ (hasRole config "aces_interchange" = false ->
      hasRole config "XYZ" = false -> configGetXYZtoRGB D mul config = D)
  /\ (forall dp,
        hasRole config ROLE_SCENE_LINEAR = true ->
        hasRole config "aces_interchange" = true ->
        getProcessor config "aces_interchange" ROLE_SCENE_LINEAR
        = Returns (Some (mkProcessor (Some dp))) ->
        configGetXYZtoRGB D mul config
        = mul (mkM3 (applyRGB dp (mkRGB f32_1 f32_0 f32_0))
                    (applyRGB dp (mkRGB f32_0 f32_1 f32_0))
                    (applyRGB dp (mkRGB f32_0 f32_0 f32_1)))
              xyz_to_aces).
Proof.
  unfold configGetXYZtoRGB. repeat apply conj.
  - by intros ->.
  - intros -> -> H%to_scene_linear_matrix_None. by rewrite H.
  - intros -> ->. by destruct (hasRole config ROLE_SCENE_LINEAR).
  - intros dp -> -> H. unfold to_scene_linear_matrix. by rewrite H.
Qed.

Lemma configGetXYZtoRGB_cases_witness :
  configGetXYZtoRGB m3_rotated (fun a _ => a) other_config = m3_rotated.
Proof.
  apply (proj1 (configGetXYZtoRGB_cases m3_rotated (fun a _ => a) other_config)).
  reflexivity.
Defined.

(** ** Images *)

Lemma packed_app (a b : list RGBA) : packed (a ++ b) = packed a ++ packed b.
Proof. unfold packed. apply flat_map_app. Qed.

Lemma packed_length (a : list RGBA) : length (packed a) = 4 * length a.
Proof.
  induction a as [ | p a IH]; [reflexivity | ].
  change (packed (p :: a)) with ([px0 p; px1 p; px2 p; px3 p] ++ packed a).
  rewrite length_app, IH. simpl. lia.
Qed.

Lemma int_of_long_small (n : Z) : (0 <= n <= INT_MAX)%Z -> int_of_long n = n.
Proof.
  unfold int_of_long, F32.int_of_bits, INT_MAX. intros H.
  rewrite Z.mod_small by lia.
  destruct (Z.ltb_spec n (2 ^ 31)); lia.
Qed.

Section PredivideImage.
Variable processor : CPUProcessor.
Variable pxs : list RGBA.
Variable rest : list float.
Variable W : nat.

Local Abbreviation f := (processorApplyRGBA_predivide processor).

(** The buffer when the first [k] pixels have been processed. *)
Local Abbreviation buffer_at k :=
  (packed (map f (take k pxs)) ++ packed (drop k pxs) ++ rest).

Hypothesis Hfit : (4 * Z.of_nat (length pxs) <= INT_MAX)%Z.

Lemma predivide_at_next (y x : nat) :
  x < W -> y * W + x < length pxs ->
  predivide_at processor (Z.of_nat W) (buffer_at (y * W + x)) y x
  = Some (buffer_at (S (y * W + x))).
Proof.
  intros Hx Hk. set (k := y * W + x) in *.
  destruct (lookup_lt_is_Some_2 pxs k Hk) as [p Hp].
  unfold predivide_at, pixel_offset.
  replace (4 * (Z.of_nat y * Z.of_nat W + Z.of_nat x))%Z
    with (Z.of_nat (4 * k)) by lia.
  destruct (Z.leb_spec (Z.of_nat (4 * k)) INT_MAX) as [_ | Hbig]; [ | lia].
  rewrite Nat2Z.id. cbn [mbind option_bind].
  assert (Hlen : length (packed (map f (take k pxs))) = 4 * k).
  { rewrite packed_length, length_map, length_take. lia. }
  rewrite (drop_S _ _ _ Hp).
  change (packed (p :: drop (S k) pxs))
    with ([px0 p; px1 p; px2 p; px3 p] ++ packed (drop (S k) pxs)).
  unfold load_pixel, store_pixel.
  rewrite (drop_app_length' _ _ _ (eq_sym Hlen)).
  rewrite (take_app_length' _ _ _ (eq_sym Hlen)).
  rewrite <- drop_drop, (drop_app_length' _ _ _ (eq_sym Hlen)).
  cbn [app drop option_bind]. destruct p as [p0 p1 p2 p3]. cbn [px0 px1 px2 px3].
  rewrite (take_S_r _ _ _ Hp), map_app, packed_app. cbn [map].
  rewrite <- app_assoc. reflexivity.
Qed.

(** The inner loop over a row. *)
Lemma predivide_row (y j : nat) :
  j <= W -> y * W + W <= length pxs ->
  foldl (fun pixels x =>
           pixels ← pixels; predivide_at processor (Z.of_nat W) pixels y x)
        (Some (buffer_at (y * W))) (seq 0 j)
  = Some (buffer_at (y * W + j)).
Proof.
  intros Hj Hy. induction j as [ | j IH].
  - by rewrite Nat.add_0_r.
  - rewrite seq_S, foldl_app, IH by lia. cbn [foldl mbind option_bind Nat.add].
    rewrite predivide_at_next by lia. by rewrite Nat.add_succ_r.
Qed.

(** The outer loop over the rows. *)
Lemma predivide_rows (i : nat) :
  i * W <= length pxs ->
  foldl (fun pixels y =>
           foldl (fun pixels x =>
                    pixels ← pixels;
                    predivide_at processor (Z.of_nat W) pixels y x)
                 pixels (seq 0 W))
        (Some (buffer_at 0)) (seq 0 i)
  = Some (buffer_at (i * W)).
Proof.
  induction i as [ | i IH]; intros Hi; [reflexivity | ].
  rewrite seq_S, foldl_app, IH by lia. cbn [foldl Nat.add].
  rewrite predivide_row by lia.
  by replace (S i * W) with (i * W + W) by lia.
Qed.
End PredivideImage.

(** The two loops of [processorApply_predivide] map the pixels. *)
Lemma predivide_image_map
    (cpu_apply : CPUProcessor -> PackedImageDesc -> list float)
    (processor : CPUProcessor) (pixels : list RGBA) (rest : list float)
    (width height chanStride xStride yStride : Z) :
  (0 <= width)%Z -> (0 <= height)%Z ->
  Z.of_nat (length pixels) = (width * height)%Z ->
  (4 * (width * height) <= INT_MAX)%Z ->
  processorApply_predivide cpu_apply processor
    (createOCIO_PackedImageDesc (packed pixels ++ rest) width height 4
                                chanStride xStride yStride)
  = Some (packed (map (processorApplyRGBA_predivide processor) pixels) ++ rest).
Proof.
  intros Hw Hh Hlen Hfit.
  unfold processorApply_predivide, createOCIO_PackedImageDesc.
  cbn [getNumChannels getData getWidth getHeight]. cbn [Z.eqb Pos.eqb].
  destruct (decide (width * height = 0)%Z) as [Hz | Hnz].
  - assert (pixels = []) as -> by (destruct pixels; [done | simpl in Hlen; lia]).
    assert (Hcase : width = 0%Z \/ height = 0%Z) by lia.
    unfold INT_MAX in *.
    destruct Hcase as [-> | ->].
    + change (int_of_long 0) with 0%Z. cbn [Z.to_nat seq foldl].
      by induction (seq 0 (Z.to_nat (int_of_long height))).
    + change (int_of_long 0) with 0%Z. reflexivity.
  - assert (Hw1 : (1 <= width)%Z) by (destruct (decide (width = 0%Z)); subst; lia).
    assert (Hh1 : (1 <= height)%Z)
      by (destruct (decide (height = 0%Z)); subst; lia).
    assert (Hwh : (width <= width * height)%Z) by nia.
    assert (Hhw : (height <= width * height)%Z) by nia.
    assert (Hwb : (0 <= width <= INT_MAX)%Z) by lia.
    assert (Hhb : (0 <= height <= INT_MAX)%Z) by lia.
    rewrite !int_of_long_small by assumption.
    remember (Z.to_nat width) as Wn eqn:EW.
    remember (Z.to_nat height) as Hgt eqn:EH.
    assert (Ew : width = Z.of_nat Wn) by lia. rewrite Ew.
    assert (Hn : Hgt * Wn = length pixels) by nia.
    pose proof (predivide_rows processor pixels rest Wn
                  ltac:(lia) Hgt ltac:(lia)) as H.
    change (packed pixels ++ rest)
      with (packed (map (processorApplyRGBA_predivide processor)
                        (take 0 pixels))
            ++ packed (drop 0 pixels) ++ rest) at 1.
    rewrite H, Hn, firstn_all, drop_all. reflexivity.
Qed.

(** X16. On an image of four channels whose buffer starts with the
    [width * height] pixels, packed, [processorApply_predivide] applies
    [processorApplyRGBA_predivide] to each pixel, in place: the pixels come
    back transformed one by one, the floats behind them are as they were,
    and the strides of the descriptor play no part. *)
Theorem processorApply_predivide_packed
    (cpu_apply : CPUProcessor -> PackedImageDesc -> list float)
    (processor : CPUProcessor) (pixels : list RGBA) (rest : list float)
    (width height chanStride xStride yStride : Z) :
  (0 <= width)%Z -> (0 <= height)%Z ->
  Z.of_nat (length pixels) = (width * height)%Z ->
  (4 * (width * height) <= INT_MAX)%Z ->
  processorApply_predivide cpu_apply processor
    (createOCIO_PackedImageDesc (packed pixels ++ rest) width height 4
                                chanStride xStride yStride)
  = Some (packed (map (processorApplyRGBA_predivide processor) pixels) ++ rest).
Proof. apply predivide_image_map. Qed.

Lemma processorApply_predivide_packed_witness :
  processorApply_predivide (fun _ img => getData img) doubling_cpu
    (createOCIO_PackedImageDesc (packed [px_half; px_opaque] ++ [F32.one])
                                2 1 4 4 16 32)
  = Some (packed [processorApplyRGBA_predivide doubling_cpu px_half;
                  processorApplyRGBA_predivide doubling_cpu px_opaque]
          ++ [F32.one]).
Proof.
  apply (processorApply_predivide_packed _ doubling_cpu [px_half; px_opaque]
           [F32.one] 2 1 4 16 32); [lia | lia | reflexivity | ].
  unfold INT_MAX. lia.
Defined.

(** X17. On such an image whose pixels all have an alpha equal to 1 or to
    0, [processorApply_predivide] is the plain application of the processor
    to every pixel. *)
Theorem processorApply_predivide_opaque
    (cpu_apply : CPUProcessor -> PackedImageDesc -> list float)
    (processor : CPUProcessor) (pixels : list RGBA) (rest : list float)
    (width height chanStride xStride yStride : Z) :
  (0 <= width)%Z -> (0 <= height)%Z ->
  Z.of_nat (length pixels) = (width * height)%Z ->
  (4 * (width * height) <= INT_MAX)%Z ->
  (forall p, In p pixels ->
             F32.eqb (px3 p) F32.one = true \/ F32.eqb (px3 p) F32.zero = true) ->
  processorApply_predivide cpu_apply processor
    (createOCIO_PackedImageDesc (packed pixels ++ rest) width height 4
                                chanStride xStride yStride)
  = Some (packed (map (processorApplyRGBA processor) pixels) ++ rest).
Proof.
  intros Hw Hh Hlen Hfit Halpha.
  rewrite predivide_image_map by assumption. do 3 f_equal.
  apply map_ext_in. intros p Hp.
  unfold processorApplyRGBA_predivide, processorApplyRGBA.
  destruct (Halpha p Hp) as [-> | ->]; [reflexivity | ].
  by rewrite orb_true_r.
Qed.

Lemma processorApply_predivide_opaque_witness :
  processorApply_predivide (fun _ img => getData img) doubling_cpu
    (createOCIO_PackedImageDesc (packed [px_clear; px_opaque] ++ []) 1 2 4 4 16 16)
  = Some (packed [processorApplyRGBA doubling_cpu px_clear;
                  processorApplyRGBA doubling_cpu px_opaque] ++ []).
Proof.
  apply (processorApply_predivide_opaque _ doubling_cpu [px_clear; px_opaque]
           [] 1 2 4 16 16); [lia | lia | reflexivity | unfold INT_MAX; lia | ].
  intros p [<- | [<- | []]]; [right | left]; reflexivity.
Defined.

(** X18. [processorApplyRGBA_predivide] never scales alpha: with a
    processor that leaves the alpha of every pixel as it is, the pixel comes
    back with the alpha it had, whichever branch is taken. *)
Theorem processorApplyRGBA_predivide_alpha (processor : CPUProcessor)
    (pixel : RGBA) :
  (forall p, px3 (applyRGBA processor p) = px3 p) ->
  px3 (processorApplyRGBA_predivide processor pixel) = px3 pixel.
Proof.
  intros Hkeep. unfold processorApplyRGBA_predivide.
  destruct (F32.eqb (px3 pixel) F32.one || F32.eqb (px3 pixel) F32.zero);
    cbn [px3]; by rewrite Hkeep.
Qed.

Lemma processorApplyRGBA_predivide_alpha_witness :
  px3 (processorApplyRGBA_predivide doubling_cpu px_half) = px3 px_half.
Proof. apply processorApplyRGBA_predivide_alpha. reflexivity. Defined.
